(** * The upgrade action of the Syndesis operator

    A shallow embedding of [pkg/syndesis/action/upgrade.go] and the
    properties of its reconciliation entry point [Execute].

    The action talks to the outside world (the bundled template, the
    namespace, the renderer, the cluster API, the clock).  Those calls are
    the fields of the interface [Cluster]; the action itself is written in a
    small state-and-error monad that threads the receiver [*Upgrade], the
    installation object behind the [*Syndesis] argument and the cluster, and
    that records every external call with its arguments and its answer in a
    transcript.  Logging ([logrus]) has no effect on any of this and is left
    out. *)

From Stdlib Require Import ZArith Lia.
From stdpp Require Import base option list strings.

Local Open Scope string_scope.
Local Open Scope list_scope.
Local Open Scope Z_scope.

(* ================================================================== *)
(** ** Go values: errors and fixed-width integers *)

(** A Go [error].  The only distinction the action draws is the one of
    [k8serrors.IsNotFound]: an API status error whose reason is
    [metav1.StatusReasonNotFound], against everything else. *)
Inductive error : Type :=
| StatusError (reason message : string)
| PlainError (message : string).

(** A Go pair [(T, error)] whose value is only looked at when the error is
    nil. *)
Inductive result (A : Type) : Type :=
| Ok (a : A)
| Err (e : error).
Arguments Ok {A} a.
Arguments Err {A} e.

Module errors.
Definition New (message : string) : error := PlainError message.
End errors.

Module metav1.
Definition StatusReasonNotFound : string := "NotFound".

(** [metav1.Time], a wrapper of [time.Time]: an instant, as a number. *)
Definition Time : Type := Z.

Record TypeMeta : Type := {
  APIVersion : string;
  Kind : string
}.

Record OwnerReference : Type := {
  OwnerKind : string;
  OwnerName : string;
  Controller : bool
}.

Record ObjectMeta : Type := {
  Namespace : string;
  Name : string;
  OwnerReferences : list OwnerReference
}.
End metav1.

Module k8serrors.
(** [IsNotFound(err)]; false on a nil error. *)
Definition IsNotFound (err : option error) : bool :=
  match err with
  | Some (StatusError reason _) =>
      bool_decide (reason = metav1.StatusReasonNotFound)
  | _ => false
  end.
Global Arguments IsNotFound : simpl never.
End k8serrors.

(** Go's [int32]: the value of an arithmetic expression is wrapped into
    [-2^31, 2^31). *)
Definition int32 (z : Z) : Z := (z + 2 ^ 31) mod 2 ^ 32 - 2 ^ 31.

Definition MaxInt32 : Z := 2 ^ 31 - 1.
Definition MinInt32 : Z := - 2 ^ 31.

(* ================================================================== *)
(** ** Kubernetes objects *)

Module v1.
(** [type PodPhase string]. *)
Definition PodPhase : Type := string.
Definition PodPending : PodPhase := "Pending".
Definition PodRunning : PodPhase := "Running".
Definition PodSucceeded : PodPhase := "Succeeded".
Definition PodFailed : PodPhase := "Failed".
Definition PodUnknown : PodPhase := "Unknown".

Record PodSpec : Type := {
  ServiceAccountName : string;
  Containers : list string
}.

Record PodStatus : Type := {
  Phase : PodPhase
}.

Record Pod : Type := {
  TypeMeta : metav1.TypeMeta;
  ObjectMeta : metav1.ObjectMeta;
  Spec : PodSpec;
  Status : PodStatus
}.

(** The zero value of the fields a composite literal leaves out. *)
Definition zeroSpec : PodSpec := {| ServiceAccountName := ""; Containers := [] |}.
Definition zeroStatus : PodStatus := {| Phase := "" |}.

(** [pod.Spec.ServiceAccountName = name]. *)
Definition setServiceAccountName (name : string) (pod : Pod) : Pod :=
  {| TypeMeta := TypeMeta pod;
     ObjectMeta := ObjectMeta pod;
     Spec := {| ServiceAccountName := name;
                Containers := Containers (Spec pod) |};
     Status := Status pod |}.
End v1.

Module runtime.
(** A [runtime.Object]: the rendered resources the action tells apart are
    pods (the type assertion to a pod pointer succeeds) and everything
    else. *)
Inductive Object : Type :=
| ObjPod (pod : v1.Pod)
| ObjOther (typeMeta : metav1.TypeMeta) (objectMeta : metav1.ObjectMeta)
           (body : string).

Record RawExtension : Type := {
  Raw : string
}.

Definition isPod (res : Object) : bool :=
  match res with ObjPod _ => true | ObjOther _ _ _ => false end.
End runtime.

(* ================================================================== *)
(** ** The installation *)

Module v1alpha1.
(** Modelled from the spec: the API types of package [v1alpha1] are not
    among the sources; the phases are those of the spec's data model
    (section 3), with one constructor for the install-time phases that are
    out of scope. *)
Inductive SyndesisInstallationStatus : Type :=
| SyndesisInstallationStatusInstalling
| SyndesisInstallationStatusUpgrading
| SyndesisInstallationStatusUpgradeFailureBackoff
| SyndesisInstallationStatusInstalled
| SyndesisInstallationStatusOther (phase : string).

(** Modelled from the spec: the classification codes of section 3
    ("missing", "upgrade pod failed"), and any other. *)
Inductive SyndesisStatusReason : Type :=
| SyndesisStatusReasonMissing
| SyndesisStatusReasonUpgradePodFailed
| SyndesisStatusReasonOther (reason : string).

(** Modelled from the spec: the status record of section 3 (the API types
    of package [v1alpha1] are not among the sources).  The attempt counter
    is the [int32] field of the operator's API; a value of the field lies
    in the range of [int32], and [UpgradeAttempts + 1] is Go's wrap-around
    addition, written with [int32] where the action computes it. *)
Record SyndesisStatus : Type := {
  InstallationStatus : SyndesisInstallationStatus;
  Reason : SyndesisStatusReason;
  Version : string;
  LastUpgradeFailure : option metav1.Time;
  UpgradeAttempts : Z;
  ForceUpgrade : bool
}.

(** Modelled from the spec: identity, declared parameters and status. *)
Record Syndesis : Type := {
  Name : string;
  Namespace : string;
  Spec : list (string * string);
  Status : SyndesisStatus
}.

(** [syndesis.DeepCopy()]: a fresh object with the same contents.  Writes
    to the copy never reach the original, which is what the value
    semantics of the embedding gives. *)
Definition DeepCopy (syndesis : Syndesis) : Syndesis := syndesis.

Definition setStatus (status : SyndesisStatus) (target : Syndesis) : Syndesis :=
  {| Name := Name target; Namespace := Namespace target;
     Spec := Spec target; Status := status |}.

(** The assignments [target.Status.F = v], one per field. *)
Definition setInstallationStatus (v : SyndesisInstallationStatus)
    (target : Syndesis) : Syndesis :=
  let st := Status target in
  setStatus {| InstallationStatus := v; Reason := Reason st;
               Version := Version st;
               LastUpgradeFailure := LastUpgradeFailure st;
               UpgradeAttempts := UpgradeAttempts st;
               ForceUpgrade := ForceUpgrade st |} target.

Definition setReason (v : SyndesisStatusReason) (target : Syndesis) : Syndesis :=
  let st := Status target in
  setStatus {| InstallationStatus := InstallationStatus st; Reason := v;
               Version := Version st;
               LastUpgradeFailure := LastUpgradeFailure st;
               UpgradeAttempts := UpgradeAttempts st;
               ForceUpgrade := ForceUpgrade st |} target.

Definition setVersion (v : string) (target : Syndesis) : Syndesis :=
  let st := Status target in
  setStatus {| InstallationStatus := InstallationStatus st;
               Reason := Reason st; Version := v;
               LastUpgradeFailure := LastUpgradeFailure st;
               UpgradeAttempts := UpgradeAttempts st;
               ForceUpgrade := ForceUpgrade st |} target.

Definition setLastUpgradeFailure (v : option metav1.Time)
    (target : Syndesis) : Syndesis :=
  let st := Status target in
  setStatus {| InstallationStatus := InstallationStatus st;
               Reason := Reason st; Version := Version st;
               LastUpgradeFailure := v;
               UpgradeAttempts := UpgradeAttempts st;
               ForceUpgrade := ForceUpgrade st |} target.

Definition setUpgradeAttempts (v : Z) (target : Syndesis) : Syndesis :=
  let st := Status target in
  setStatus {| InstallationStatus := InstallationStatus st;
               Reason := Reason st; Version := Version st;
               LastUpgradeFailure := LastUpgradeFailure st;
               UpgradeAttempts := v;
               ForceUpgrade := ForceUpgrade st |} target.

Definition setForceUpgrade (v : bool) (target : Syndesis) : Syndesis :=
  let st := Status target in
  setStatus {| InstallationStatus := InstallationStatus st;
               Reason := Reason st; Version := Version st;
               LastUpgradeFailure := LastUpgradeFailure st;
               UpgradeAttempts := UpgradeAttempts st;
               ForceUpgrade := v |} target.

Global Instance SyndesisInstallationStatus_eq_dec :
  EqDecision SyndesisInstallationStatus.
Proof. solve_decision. Defined.
End v1alpha1.

Module syndesistemplate.
Record InstallParams : Type := {
  OAuthClientSecret : string
}.

Record UpgradeParams : Type := {
  UpgradeInstallParams : InstallParams;
  SyndesisVersion : string
}.
End syndesistemplate.

(* ================================================================== *)
(** ** The outside world *)

(** One entry of the transcript per external call: what was asked and what
    came back. *)
Inductive Event : Type :=
| EvTemplateVersion (answer : result string)
| EvNamespaceVersion (namespace : string) (answer : result string)
| EvRender (syndesis : v1alpha1.Syndesis)
           (params : syndesistemplate.UpgradeParams)
           (answer : result (list runtime.RawExtension))
| EvLoad (raw : string) (answer : result runtime.Object)
| EvGet (request found : v1.Pod) (err : option error)
| EvApply (res : runtime.Object) (force : bool) (err : option error)
| EvUpdate (target : v1alpha1.Syndesis) (err : option error)
| EvNow (now : metav1.Time).

(** The collaborators of the action, over an arbitrary state [W] of the
    outside world.  Every call may change that state and may answer
    differently each time.

    [LoadKubernetesResource] decodes a manifest into a newly allocated
    object, so the loaded resources are pairwise distinct objects and a
    resource is identified by its position in the slice.

    [createOrReplaceForce] and [sdk.Update] are the two calls that write to
    the cluster; they are taken as given, like the rest of the cluster
    API. *)
Class Cluster (W : Type) : Type := {
  version_GetSyndesisVersionFromOperatorTemplate : W → result string * W;
  version_GetSyndesisVersionFromNamespace : string → W → result string * W;
  syndesistemplate_GetUpgradeResources :
    v1alpha1.Syndesis → syndesistemplate.UpgradeParams → W →
    result (list runtime.RawExtension) * W;
  util_LoadKubernetesResource : string → W → result runtime.Object * W;
  sdk_Get : v1.Pod → W → (v1.Pod * option error) * W;
  createOrReplaceForce : runtime.Object → bool → W → option error * W;
  sdk_Update : v1alpha1.Syndesis → W → option error * W;
  time_Now : W → metav1.Time * W
}.

(* ================================================================== *)
(** ** The action *)

Definition UpgradePodServiceAccountName : string := "syndesis-operator".

(** [type Upgrade struct { operatorVersion string }]. *)
Record Upgrade : Type := {
  operatorVersion : string
}.

(** Modelled from the spec: [syndesisInstallationStatusIs] is not among the
    sources; the entry guard of section 4.5 compares the installation phase
    with the given one. *)
Definition syndesisInstallationStatusIs (syndesis : v1alpha1.Syndesis)
    (status : v1alpha1.SyndesisInstallationStatus) : bool :=
  bool_decide (v1alpha1.InstallationStatus (v1alpha1.Status syndesis) = status).

Definition CanExecute (a : Upgrade) (syndesis : v1alpha1.Syndesis) : bool :=
  syndesisInstallationStatusIs syndesis
    v1alpha1.SyndesisInstallationStatusUpgrading.

(** Modelled from the spec: the stamping done by
    [setNamespaceAndOwnerReference], which is not among the sources;
    section 4.3 has it set the resource's namespace to the owning
    installation's namespace and set an owner reference to the
    installation.  Nothing else of the resource changes. *)
Definition stampMeta (objectMeta : metav1.ObjectMeta)
    (syndesis : v1alpha1.Syndesis) : metav1.ObjectMeta :=
  {| metav1.Namespace := v1alpha1.Namespace syndesis;
     metav1.Name := metav1.Name objectMeta;
     metav1.OwnerReferences :=
       [ {| metav1.OwnerKind := "Syndesis";
            metav1.OwnerName := v1alpha1.Name syndesis;
            metav1.Controller := true |} ] |}.

(** Modelled from the spec: [setNamespaceAndOwnerReference], absent from
    the sources, stamps the metadata of the resource in place (section
    4.3), whatever its kind. *)
Definition setNamespaceAndOwnerReference (res : runtime.Object)
    (syndesis : v1alpha1.Syndesis) : runtime.Object :=
  match res with
  | runtime.ObjPod pod =>
      runtime.ObjPod
        {| v1.TypeMeta := v1.TypeMeta pod;
           v1.ObjectMeta := stampMeta (v1.ObjectMeta pod) syndesis;
           v1.Spec := v1.Spec pod;
           v1.Status := v1.Status pod |}
  | runtime.ObjOther typeMeta objectMeta body =>
      runtime.ObjOther typeMeta (stampMeta objectMeta syndesis) body
  end.

(** [findUpgradePod]: the first resource that is a pod.  The Go function
    returns the pointer held in the slice, so that a later write through it
    is a write to that element; the embedding returns the position together
    with the pod. *)
Fixpoint findUpgradePod (resources : list runtime.Object) : result (nat * v1.Pod) :=
  match resources with
  | [] => Err (errors.New "upgrade pod not found")
  | res :: rest =>
      match res with
      | runtime.ObjPod pod => Ok (0%nat, pod)
      | runtime.ObjOther _ _ _ =>
          match findUpgradePod rest with
          | Ok (i, pod) => Ok (S i, pod)
          | Err e => Err e
          end
      end
  end.

Section Action.
Context {W : Type} `{!Cluster W}.

(** What a call of the action can change: the receiver, the installation
    object its argument points to, and the outside world. *)
Record Machine : Type := {
  this : Upgrade;
  installation : v1alpha1.Syndesis;
  cluster : W
}.

Record Outcome (A : Type) : Type := {
  returned : result A;
  machine : Machine;
  transcript : list Event
}.
Global Arguments returned {A} _.
Global Arguments machine {A} _.
Global Arguments transcript {A} _.

(** State, early return on error, and the transcript of the calls made. *)
Definition M (A : Type) : Type := Machine → Outcome A.

Global Instance M_ret : MRet M := λ A a m,
  {| returned := Ok a; machine := m; transcript := [] |}.

Global Instance M_bind : MBind M := λ A B f c m,
  match c m with
  | {| returned := Ok a; machine := m1; transcript := tr1 |} =>
      match f a m1 with
      | {| returned := r; machine := m2; transcript := tr2 |} =>
          {| returned := r; machine := m2; transcript := tr1 ++ tr2 |}
      end
  | {| returned := Err e; machine := m1; transcript := tr1 |} =>
      {| returned := Err e; machine := m1; transcript := tr1 |}
  end.

(** [return err]. *)
Definition fail {A : Type} (e : error) : M A := λ m,
  {| returned := Err e; machine := m; transcript := [] |}.

Definition lift {A : Type} (r : result A) : M A :=
  match r with Ok a => mret a | Err e => fail e end.

Definition gets {A : Type} (f : Machine → A) : M A := λ m,
  {| returned := Ok (f m); machine := m; transcript := [] |}.

(** [a.operatorVersion = v]. *)
Definition setOperatorVersion (v : string) : M unit := λ m,
  {| returned := Ok ();
     machine := {| this := {| operatorVersion := v |};
                   installation := installation m;
                   cluster := cluster m |};
     transcript := [] |}.

(** An external call, recorded in the transcript. *)
Definition call {A : Type} (op : W → A * W) (event : A → Event) : M A := λ m,
  let '(a, w) := op (cluster m) in
  {| returned := Ok a;
     machine := {| this := this m; installation := installation m;
                   cluster := w |};
     transcript := [event a] |}.

(** [x, err := f(...); if err != nil { return err }]. *)
Definition callR {A : Type} (op : W → result A * W)
    (event : result A → Event) : M A :=
  r ← call op event; lift r.

(** [err = f(...); if err != nil { return err }], also [return f(...)]. *)
Definition callE (op : W → option error * W)
    (event : option error → Event) : M unit :=
  err ← call op event;
  match err with Some e => fail e | None => mret () end.

Definition sdk_Update_ (target : v1alpha1.Syndesis) : M unit :=
  callE (sdk_Update target) (EvUpdate target).

Definition upgradeCompleted (syndesis : v1alpha1.Syndesis)
    (newVersion : string) : M unit :=
  let target := v1alpha1.DeepCopy syndesis in
  let target := v1alpha1.setInstallationStatus
                  v1alpha1.SyndesisInstallationStatusInstalled target in
  let target := v1alpha1.setReason v1alpha1.SyndesisStatusReasonMissing target in
  let target := v1alpha1.setVersion newVersion target in
  let target := v1alpha1.setLastUpgradeFailure None target in
  let target := v1alpha1.setUpgradeAttempts 0 target in
  let target := v1alpha1.setForceUpgrade false target in
  sdk_Update_ target.

(** The loop of [getUpgradeResources]: load each raw manifest and append
    it to [resources]; the first failure is returned. *)
Fixpoint loadResources (rawResources : list runtime.RawExtension)
    (resources : list runtime.Object) : M (list runtime.Object) :=
  match rawResources with
  | [] => mret resources
  | obj :: rest =>
      res ← callR (util_LoadKubernetesResource (runtime.Raw obj))
                  (EvLoad (runtime.Raw obj));
      loadResources rest (resources ++ [res])
  end.

Definition getUpgradeResources (syndesis : v1alpha1.Syndesis) :
    M (list runtime.Object) :=
  a ← gets this;
  let params :=
    {| syndesistemplate.UpgradeInstallParams :=
         {| syndesistemplate.OAuthClientSecret := "-" |};
       syndesistemplate.SyndesisVersion := operatorVersion a |} in
  rawResources ←
    callR (syndesistemplate_GetUpgradeResources syndesis params)
          (EvRender syndesis params);
  loadResources rawResources [].

Definition getUpgradePodFromNamespace (podTemplate : v1.Pod)
    (syndesis : v1alpha1.Syndesis) : M (v1.Pod * option error) :=
  let pod :=
    {| v1.TypeMeta :=
         {| metav1.APIVersion := metav1.APIVersion (v1.TypeMeta podTemplate);
            metav1.Kind := metav1.Kind (v1.TypeMeta podTemplate) |};
       v1.ObjectMeta :=
         {| metav1.Namespace := v1alpha1.Namespace syndesis;
            metav1.Name := metav1.Name (v1.ObjectMeta podTemplate);
            metav1.OwnerReferences := [] |};
       v1.Spec := v1.zeroSpec;
       v1.Status := v1.zeroStatus |} in
  call (sdk_Get pod) (λ '(found, err), EvGet pod found err).

(** The loop over the rendered resources: stamp, then create or replace
    with force; the first failure is returned. *)
Fixpoint applyResources (resources : list runtime.Object)
    (syndesis : v1alpha1.Syndesis) : M unit :=
  match resources with
  | [] => mret ()
  | res :: rest =>
      let res := setNamespaceAndOwnerReference res syndesis in
      callE (createOrReplaceForce res true) (EvApply res true);;
      applyResources rest syndesis
  end.

Definition Execute : M unit :=
  a ← gets this;
  (if decide (operatorVersion a = "") then
     operatorVersion ← callR version_GetSyndesisVersionFromOperatorTemplate
                             EvTemplateVersion;
     setOperatorVersion operatorVersion
   else mret ());;
  syndesis ← gets installation;
  namespaceVersion ←
    callR (version_GetSyndesisVersionFromNamespace (v1alpha1.Namespace syndesis))
          (EvNamespaceVersion (v1alpha1.Namespace syndesis));
  targetVersion ← gets (λ m, operatorVersion (this m));
  resources ← getUpgradeResources syndesis;
  '(i, templateUpgradePod) ← lift (findUpgradePod resources);
  '(upgradePod, err) ← getUpgradePodFromNamespace templateUpgradePod syndesis;
  match err with
  | Some e => if k8serrors.IsNotFound err then mret () else fail e
  | None => mret ()
  end;;
  if v1alpha1.ForceUpgrade (v1alpha1.Status syndesis) || k8serrors.IsNotFound err
  then
    (* Upgrade pod not found or upgrade forced *)
    if decide (namespaceVersion ≠ targetVersion) then
      (* the write goes through the pointer into the slice *)
      let templateUpgradePod :=
        v1.setServiceAccountName UpgradePodServiceAccountName templateUpgradePod in
      let resources := <[i := runtime.ObjPod templateUpgradePod]> resources in
      applyResources resources syndesis;;
      if v1alpha1.ForceUpgrade (v1alpha1.Status syndesis) then
        let target := v1alpha1.DeepCopy syndesis in
        let target := v1alpha1.setForceUpgrade false target in
        sdk_Update_ target
      else mret ()
    else
      (* No upgrade pod, no version change: upgraded *)
      upgradeCompleted syndesis targetVersion
  else
    (* Upgrade pod present, checking the status *)
    if decide (v1.Phase (v1.Status upgradePod) = v1.PodSucceeded) then
      newNamespaceVersion ←
        callR (version_GetSyndesisVersionFromNamespace (v1alpha1.Namespace syndesis))
              (EvNamespaceVersion (v1alpha1.Namespace syndesis));
      if decide (newNamespaceVersion = targetVersion) then
        upgradeCompleted syndesis targetVersion
      else
        let target := v1alpha1.DeepCopy syndesis in
        let target := v1alpha1.setForceUpgrade true target in
        sdk_Update_ target
    else if decide (v1.Phase (v1.Status upgradePod) = v1.PodFailed) then
      let target := v1alpha1.DeepCopy syndesis in
      let target := v1alpha1.setInstallationStatus
                      v1alpha1.SyndesisInstallationStatusUpgradeFailureBackoff
                      target in
      let target := v1alpha1.setReason
                      v1alpha1.SyndesisStatusReasonUpgradePodFailed target in
      now ← call time_Now EvNow;
      let target := v1alpha1.setLastUpgradeFailure (Some now) target in
      let target := v1alpha1.setUpgradeAttempts
                      (int32 (v1alpha1.UpgradeAttempts (v1alpha1.Status target) + 1))
                      target in
      sdk_Update_ target
    else
      (* Still running *)
      mret ().
End Action.

Arguments Machine W : clear implicits.
Arguments Outcome W A : clear implicits.
Arguments M W A : clear implicits.

(* ================================================================== *)
(** ** Reading a transcript *)

Fixpoint templateReads (tr : list Event) : list (result string) :=
  match tr with
  | [] => []
  | EvTemplateVersion answer :: tr => answer :: templateReads tr
  | _ :: tr => templateReads tr
  end.

Fixpoint namespaceReads (tr : list Event) : list (result string) :=
  match tr with
  | [] => []
  | EvNamespaceVersion _ answer :: tr => answer :: namespaceReads tr
  | _ :: tr => namespaceReads tr
  end.

Fixpoint rendered (tr : list Event) : list (result (list runtime.RawExtension)) :=
  match tr with
  | [] => []
  | EvRender _ _ answer :: tr => answer :: rendered tr
  | _ :: tr => rendered tr
  end.

(** The resources that were loaded, in order. *)
Fixpoint loaded (tr : list Event) : list runtime.Object :=
  match tr with
  | [] => []
  | EvLoad _ (Ok res) :: tr => res :: loaded tr
  | _ :: tr => loaded tr
  end.

Fixpoint loadFailures (tr : list Event) : list error :=
  match tr with
  | [] => []
  | EvLoad _ (Err e) :: tr => e :: loadFailures tr
  | _ :: tr => loadFailures tr
  end.

(** The answers of the cluster to the look-up of the live upgrade pod. *)
Fixpoint fetched (tr : list Event) : list (v1.Pod * option error) :=
  match tr with
  | [] => []
  | EvGet _ found err :: tr => (found, err) :: fetched tr
  | _ :: tr => fetched tr
  end.

(** The resources handed to [createOrReplaceForce], with the force flag and
    the answer. *)
Fixpoint applied (tr : list Event) : list (runtime.Object * bool * option error) :=
  match tr with
  | [] => []
  | EvApply res force err :: tr => (res, force, err) :: applied tr
  | _ :: tr => applied tr
  end.

(** The installations handed to [sdk.Update], with the answer. *)
Fixpoint updates (tr : list Event) : list (v1alpha1.Syndesis * option error) :=
  match tr with
  | [] => []
  | EvUpdate target err :: tr => (target, err) :: updates tr
  | _ :: tr => updates tr
  end.

(** The status updates that were issued. *)
Fixpoint committed (tr : list Event) : list v1alpha1.Syndesis :=
  match tr with
  | [] => []
  | EvUpdate target _ :: tr => target :: committed tr
  | _ :: tr => committed tr
  end.

(** The transcripts of the two loops. *)
Definition loadEvents (answers : list (string * result runtime.Object)) : list Event :=
  (λ x, EvLoad x.1 x.2) <$> answers.

Definition applyEvents (answers : list (runtime.Object * option error)) : list Event :=
  (λ x, EvApply x.1 true x.2) <$> answers.

(** *** More to read off a transcript *)

(** What the renderer was asked for. *)
Fixpoint renderRequests (tr : list Event) :
    list (v1alpha1.Syndesis * syndesistemplate.UpgradeParams) :=
  match tr with
  | [] => []
  | EvRender syndesis params _ :: tr => (syndesis, params) :: renderRequests tr
  | _ :: tr => renderRequests tr
  end.

(** The manifests handed to the loader, each with the loader's answer. *)
Fixpoint loadRequests (tr : list Event) : list (string * result runtime.Object) :=
  match tr with
  | [] => []
  | EvLoad raw answer :: tr => (raw, answer) :: loadRequests tr
  | _ :: tr => loadRequests tr
  end.

(** The namespaces whose live version was asked for. *)
Fixpoint namespaceRequests (tr : list Event) : list string :=
  match tr with
  | [] => []
  | EvNamespaceVersion namespace _ :: tr => namespace :: namespaceRequests tr
  | _ :: tr => namespaceRequests tr
  end.

(** The pods the cluster was asked to look up. *)
Fixpoint fetchRequests (tr : list Event) : list v1.Pod :=
  match tr with
  | [] => []
  | EvGet request _ _ :: tr => request :: fetchRequests tr
  | _ :: tr => fetchRequests tr
  end.

(** The readings of the clock. *)
Fixpoint clockReads (tr : list Event) : list metav1.Time :=
  match tr with
  | [] => []
  | EvNow now :: tr => now :: clockReads tr
  | _ :: tr => clockReads tr
  end.

(** The calls that write to the cluster, applies and status updates, in
    the order in which they were made. *)
Fixpoint writes (tr : list Event) : list Event :=
  match tr with
  | [] => []
  | EvApply res force err :: tr => EvApply res force err :: writes tr
  | EvUpdate target err :: tr => EvUpdate target err :: writes tr
  | _ :: tr => writes tr
  end.

(** The error an external call came back with, if any. *)
Definition eventError (ev : Event) : option error :=
  match ev with
  | EvTemplateVersion (Err e) => Some e
  | EvNamespaceVersion _ (Err e) => Some e
  | EvRender _ _ (Err e) => Some e
  | EvLoad _ (Err e) => Some e
  | EvGet _ _ err => err
  | EvApply _ _ err => err
  | EvUpdate _ err => err
  | _ => None
  end.

(** The errors the external calls came back with, in order. *)
Fixpoint failures (tr : list Event) : list error :=
  match tr with
  | [] => []
  | ev :: tr =>
      match eventError ev with
      | Some e => e :: failures tr
      | None => failures tr
      end
  end.

(** The order of the external calls of one reconciliation, as an automaton
    over the transcript: a stage names the call made last. *)
Inductive Stage : Type :=
| AtStart | AfterTemplate | AfterNamespace | AfterRender | AfterLoad
| AfterGet | AfterApply | AfterRecheck | AfterNow | AfterUpdate.

Definition next (stage : Stage) (ev : Event) : option Stage :=
  match stage, ev with
  | AtStart, EvTemplateVersion _ => Some AfterTemplate
  | AtStart, EvNamespaceVersion _ _ => Some AfterNamespace
  | AfterTemplate, EvNamespaceVersion _ _ => Some AfterNamespace
  | AfterNamespace, EvRender _ _ _ => Some AfterRender
  | AfterRender, EvLoad _ _ => Some AfterLoad
  | AfterLoad, EvLoad _ _ => Some AfterLoad
  | AfterLoad, EvGet _ _ _ => Some AfterGet
  | AfterGet, EvApply _ _ _ => Some AfterApply
  | AfterGet, EvNamespaceVersion _ _ => Some AfterRecheck
  | AfterGet, EvNow _ => Some AfterNow
  | AfterGet, EvUpdate _ _ => Some AfterUpdate
  | AfterApply, EvApply _ _ _ => Some AfterApply
  | AfterApply, EvUpdate _ _ => Some AfterUpdate
  | AfterRecheck, EvUpdate _ _ => Some AfterUpdate
  | AfterNow, EvUpdate _ _ => Some AfterUpdate
  | _, _ => None
  end.

Fixpoint follow (stage : Stage) (tr : list Event) : option Stage :=
  match tr with
  | [] => Some stage
  | ev :: tr =>
      match next stage ev with
      | Some stage' => follow stage' tr
      | None => None
      end
  end.

(* ================================================================== *)
(** ** A scripted cluster

    A concrete outside world, to run the action on: every collaborator
    answers from a script. *)

Module Scripted.
Record World : Type := {
  templateAnswer : result string;
  (** the answers of the namespace, one per read *)
  namespaceAnswers : list (result string);
  renderAnswer : result (list runtime.RawExtension);
  (** the phase of the live upgrade pod, if there is one *)
  livePhase : option v1.PodPhase;
  applyAnswer : option error;
  updateAnswer : option error;
  clock : metav1.Time
}.

Definition podMeta : metav1.TypeMeta :=
  {| metav1.APIVersion := "v1"; metav1.Kind := "Pod" |}.

Definition configMeta : metav1.TypeMeta :=
  {| metav1.APIVersion := "v1"; metav1.Kind := "ConfigMap" |}.

Definition upgradePod : v1.Pod :=
  {| v1.TypeMeta := podMeta;
     v1.ObjectMeta := {| metav1.Namespace := ""; metav1.Name := "syndesis-upgrade";
                         metav1.OwnerReferences := [] |};
     v1.Spec := {| v1.ServiceAccountName := "default";
                   v1.Containers := ["upgrade"] |};
     v1.Status := v1.zeroStatus |}.

(** The manifest ["pod"] is the upgrade pod, ["broken"] does not parse,
    anything else is a config resource named after the manifest. *)
Definition decode (raw : string) : result runtime.Object :=
  if decide (raw = "pod") then Ok (runtime.ObjPod upgradePod)
  else if decide (raw = "broken") then Err (PlainError "cannot decode")
  else Ok (runtime.ObjOther configMeta
             {| metav1.Namespace := ""; metav1.Name := raw;
                metav1.OwnerReferences := [] |} raw).

Definition readNamespace (w : World) : result string * World :=
  match namespaceAnswers w with
  | answer :: rest =>
      (answer,
       {| templateAnswer := templateAnswer w; namespaceAnswers := rest;
          renderAnswer := renderAnswer w; livePhase := livePhase w;
          applyAnswer := applyAnswer w; updateAnswer := updateAnswer w;
          clock := clock w |})
  | [] => (Err (PlainError "namespace state unreadable"), w)
  end.

Definition get (request : v1.Pod) (w : World) : (v1.Pod * option error) * World :=
  match livePhase w with
  | Some phase =>
      (({| v1.TypeMeta := v1.TypeMeta request;
           v1.ObjectMeta := v1.ObjectMeta request;
           v1.Spec := v1.Spec upgradePod;
           v1.Status := {| v1.Phase := phase |} |}, None), w)
  | None =>
      ((request, Some (StatusError metav1.StatusReasonNotFound "pod not found")), w)
  end.

Global Instance scripted : Cluster World := {|
  version_GetSyndesisVersionFromOperatorTemplate w := (templateAnswer w, w);
  version_GetSyndesisVersionFromNamespace _ w := readNamespace w;
  syndesistemplate_GetUpgradeResources _ _ w := (renderAnswer w, w);
  util_LoadKubernetesResource raw w := (decode raw, w);
  sdk_Get := get;
  createOrReplaceForce _ _ w := (applyAnswer w, w);
  sdk_Update _ w := (updateAnswer w, w);
  time_Now w := (clock w, w)
|}.

Definition raw (s : string) : runtime.RawExtension := {| runtime.Raw := s |}.

(** The bundled template is at 1.5.0 and renders a config resource and
    the upgrade pod; every call to the cluster succeeds. *)
Definition world (namespaceVersions : list string)
    (phase : option v1.PodPhase) : World :=
  {| templateAnswer := Ok "1.5.0";
     namespaceAnswers := Ok <$> namespaceVersions;
     renderAnswer := Ok [raw "config"; raw "pod"];
     livePhase := phase;
     applyAnswer := None;
     updateAnswer := None;
     clock := 1000 |}.

Definition status (attempts : Z) (force : bool) : v1alpha1.SyndesisStatus :=
  {| v1alpha1.InstallationStatus := v1alpha1.SyndesisInstallationStatusUpgrading;
     v1alpha1.Reason := v1alpha1.SyndesisStatusReasonMissing;
     v1alpha1.Version := "1.4.2";
     v1alpha1.LastUpgradeFailure := Some 900;
     v1alpha1.UpgradeAttempts := attempts;
     v1alpha1.ForceUpgrade := force |}.

Definition example (attempts : Z) (force : bool) : v1alpha1.Syndesis :=
  {| v1alpha1.Name := "example"; v1alpha1.Namespace := "syndesis";
     v1alpha1.Spec := [("routeHostname", "syndesis.192.168.64.79.nip.io")];
     v1alpha1.Status := status attempts force |}.

(** The bundled template cannot be read. *)
Definition unreadable : World :=
  {| templateAnswer := Err (PlainError "template unreadable");
     namespaceAnswers := [Ok "1.4.2"];
     renderAnswer := Ok [raw "config"; raw "pod"];
     livePhase := None;
     applyAnswer := None;
     updateAnswer := None;
     clock := 1000 |}.

(** The bundled template is read, and carries the empty version. *)
Definition unversioned : World :=
  {| templateAnswer := Ok "";
     namespaceAnswers := [Ok "1.4.2"; Ok "1.4.2"];
     renderAnswer := Ok [raw "config"; raw "pod"];
     livePhase := Some v1.PodRunning;
     applyAnswer := None;
     updateAnswer := None;
     clock := 1000 |}.

(** The rendered set has no upgrade pod. *)
Definition taskless : World :=
  {| templateAnswer := Ok "1.5.0";
     namespaceAnswers := [Ok "1.4.2"];
     renderAnswer := Ok [raw "config"];
     livePhase := None;
     applyAnswer := None;
     updateAnswer := None;
     clock := 1000 |}.

(** The cluster refuses every apply. *)
Definition rejecting : World :=
  {| templateAnswer := Ok "1.5.0";
     namespaceAnswers := [Ok "1.4.2"];
     renderAnswer := Ok [raw "config"; raw "pod"];
     livePhase := None;
     applyAnswer := Some (PlainError "apply refused");
     updateAnswer := None;
     clock := 1000 |}.

(** The second of the three rendered manifests does not parse. *)
Definition garbled : World :=
  {| templateAnswer := Ok "1.5.0";
     namespaceAnswers := [Ok "1.4.2"];
     renderAnswer := Ok [raw "config"; raw "broken"; raw "pod"];
     livePhase := None;
     applyAnswer := None;
     updateAnswer := None;
     clock := 1000 |}.

(** A controller that has not resolved its version yet, about to reconcile
    the example installation. *)
Definition start (attempts : Z) (force : bool) (w : World) : Machine World :=
  {| this := {| operatorVersion := "" |};
     installation := example attempts force;
     cluster := w |}.
End Scripted.

(* ================================================================== *)
(** ** What the properties speak about *)

(** The version the controller migrates installations to, as the receiver
    holds it once the call is over. *)
Definition targetVersion {W A : Type} (o : Outcome W A) : string :=
  operatorVersion (this (machine o)).

(** The attempt counter of an installation is an [int32]. *)
Definition validAttempts (syndesis : v1alpha1.Syndesis) : Prop :=
  (MinInt32 ≤ v1alpha1.UpgradeAttempts (v1alpha1.Status syndesis) ≤ MaxInt32)%Z.

(** The resources the apply loop runs over: the loaded ones, with the
    service account written into the upgrade pod at position [i]. *)
Definition prepared (resources : list runtime.Object) (i : nat) (pod : v1.Pod) :
    list runtime.Object :=
  <[i := runtime.ObjPod
           (v1.setServiceAccountName UpgradePodServiceAccountName pod)]> resources.

(** The step at which a call of the action gave up.  A failing external
    call is the last entry of the transcript; an error that follows a call
    that did not fail was raised by the action itself, which only the task
    locator does. *)
Inductive Step : Type :=
| ResolveTarget | ResolveLive | Render | Load | Locate | Fetch | Apply | Commit.

Definition failingStep {W : Type} (o : Outcome W ()) : option Step :=
  match returned o with
  | Ok _ => None
  | Err _ =>
      match last (transcript o) with
      | Some (EvTemplateVersion (Err _)) => Some ResolveTarget
      | Some (EvNamespaceVersion _ (Err _)) => Some ResolveLive
      | Some (EvRender _ _ (Err _)) => Some Render
      | Some (EvLoad _ (Err _)) => Some Load
      | Some (EvGet _ _ (Some _)) => Some Fetch
      | Some (EvApply _ _ (Some _)) => Some Apply
      | Some (EvUpdate _ (Some _)) => Some Commit
      | _ => Some Locate
      end
  end.

(** The steps that come before the action branches on the upgrade pod, and
    the second look at the live version. *)
Definition beforeAnyWrite (step : Step) : bool :=
  match step with
  | ResolveTarget | ResolveLive | Render | Load | Locate | Fetch => true
  | Apply | Commit => false
  end.

Section Lifetime.
Context {W : Type} `{!Cluster W}.

(** The life of a controller: one call of the action per trigger, each on
    the installation the trigger is about, all on the same receiver.  An
    error ends the call, not the controller. *)
Fixpoint reconcileAll (triggers : list v1alpha1.Syndesis) (a : Upgrade) (w : W) :
    Upgrade * W * list Event :=
  match triggers with
  | [] => (a, w, [])
  | syndesis :: rest =>
      let o := Execute {| this := a; installation := syndesis; cluster := w |} in
      let '(a', w', tr) :=
        reconcileAll rest (this (machine o)) (cluster (machine o)) in
      (a', w', transcript o ++ tr)
  end.
End Lifetime.

(** The reads of the bundled template over a life, against the version the
    receiver ends up with: a run of reads that left the cache cold, then at
    most one read that filled it, and no read after that. *)
Definition readOnce (cold : result string → Prop)
    (reads : list (result string)) (cache : string) : Prop :=
  ∃ misses, Forall cold misses ∧
    ((reads = misses ∧ cache = "") ∨
     (∃ v, reads = misses ++ [Ok v] ∧ cache = v)).

Definition failedRead (answer : result string) : Prop :=
  match answer with Ok _ => False | Err _ => True end.

(** A read leaves the cache cold when it fails, and also when it succeeds
    with the empty version, which is how the receiver spells "not
    resolved". *)
Definition coldRead (answer : result string) : Prop :=
  match answer with Ok v => v = "" | Err _ => True end.

(** *** The claims that do not hold as they are worded *)

(** C1, as worded: whenever the flag is set, a call that succeeds applies
    the whole rendered set with force and clears the flag. *)
Definition forcedUpgradeDone {W : Type} `{!Cluster W} (m : Machine W) : Prop :=
  let o := Execute m in
  (∃ target, committed (transcript o) = [target] ∧
     v1alpha1.ForceUpgrade (v1alpha1.Status target) = false) ∧
  (∃ i pod, findUpgradePod (loaded (transcript o)) = Ok (i, pod) ∧
     applied (transcript o) =
       (λ res, (setNamespaceAndOwnerReference res (installation m), true, None))
         <$> prepared (loaded (transcript o)) i pod).

Definition C1_as_worded : Prop :=
  ∀ (W : Type) (api : Cluster W) (m : Machine W),
    v1alpha1.ForceUpgrade (v1alpha1.Status (installation m)) = true →
    returned (Execute m) = Ok () →
    forcedUpgradeDone m.

(** C2, as worded: a failed upgrade pod moves the installation to the
    backoff phase, with the reason, the time and one more attempt. *)
Definition failureRecorded {W : Type} `{!Cluster W} (m : Machine W) : Prop :=
  let o := Execute m in
  ∃ target now, committed (transcript o) = [target] ∧
    let status := v1alpha1.Status target in
    v1alpha1.InstallationStatus status
      = v1alpha1.SyndesisInstallationStatusUpgradeFailureBackoff ∧
    v1alpha1.Reason status = v1alpha1.SyndesisStatusReasonUpgradePodFailed ∧
    v1alpha1.UpgradeAttempts status
      = v1alpha1.UpgradeAttempts (v1alpha1.Status (installation m)) + 1 ∧
    v1alpha1.LastUpgradeFailure status = Some now.

Definition C2_as_worded : Prop :=
  ∀ (W : Type) (api : Cluster W) (m : Machine W) (pod : v1.Pod),
    validAttempts (installation m) →
    v1alpha1.ForceUpgrade (v1alpha1.Status (installation m)) = false →
    fetched (transcript (Execute m)) = [(pod, None)] →
    v1.Phase (v1.Status pod) = v1.PodFailed →
    failureRecorded m.

(** C6, as worded: what a commit may do to the attempt counter. *)
Definition attemptsStep (prior target : v1alpha1.Syndesis) : Prop :=
  let before := v1alpha1.UpgradeAttempts (v1alpha1.Status prior) in
  let after := v1alpha1.UpgradeAttempts (v1alpha1.Status target) in
  after = before ∨
  (v1alpha1.InstallationStatus (v1alpha1.Status target)
     = v1alpha1.SyndesisInstallationStatusUpgradeFailureBackoff ∧
   after = before + 1) ∨
  (v1alpha1.InstallationStatus (v1alpha1.Status target)
     = v1alpha1.SyndesisInstallationStatusInstalled ∧
   after = 0).

Definition C6_as_worded : Prop :=
  ∀ (W : Type) (api : Cluster W) (m : Machine W) (target : v1alpha1.Syndesis),
    validAttempts (installation m) →
    target ∈ committed (transcript (Execute m)) →
    attemptsStep (installation m) target.

(** C9, as worded: over the life of a controller that starts with an empty
    cache, every read of the template before the first successful one
    failed, and nothing is read after it. *)
Definition C9_as_worded : Prop :=
  ∀ (W : Type) (api : Cluster W) (triggers : list v1alpha1.Syndesis) (w : W),
    let '(a, _, tr) := reconcileAll triggers {| operatorVersion := "" |} w in
    readOnce failedRead (templateReads tr) (operatorVersion a).

(** *** The amended claims *)

(** The whole rendering was loaded: the renderer answered once, every
    manifest it rendered was handed to the loader, once and in the order of
    the rendering, every load succeeded, and the loaded resources are the
    answers of the loader, one per manifest. *)
Definition loadedTheRendering (tr : list Event) : Prop :=
  ∃ rawResources,
    rendered tr = [Ok rawResources] ∧
    loadRequests tr = zip (runtime.Raw <$> rawResources) (Ok <$> loaded tr) ∧
    length (loaded tr) = length rawResources.

(** C1, amended: the forced run.  The whole rendering is loaded; the writes
    to the cluster are, in this order, one accepted apply with force per
    resource, stamped, the upgrade pod under the operator's service
    account, and then one accepted status update, the installation with
    [forceUpgrade] cleared; nothing is written after it. *)
Definition forcedUpgradeRun {W : Type} `{!Cluster W} (m : Machine W) : Prop :=
  let o := Execute m in
  let resources := loaded (transcript o) in
  loadedTheRendering (transcript o) ∧
  ∃ i pod,
    findUpgradePod resources = Ok (i, pod) ∧
    writes (transcript o) =
      applyEvents
        ((λ res, (setNamespaceAndOwnerReference res (installation m), None))
           <$> prepared resources i pod)
      ++ [EvUpdate (v1alpha1.setForceUpgrade false (installation m)) None].

(** C2, amended: the failure is recorded, with the attempt counter one up,
    or wrapped around at the largest [int32]. *)
Definition failureBackoff {W : Type} `{!Cluster W} (m : Machine W) : Prop :=
  let o := Execute m in
  ∃ target now, committed (transcript o) = [target] ∧
    let status := v1alpha1.Status target in
    let attempts := v1alpha1.UpgradeAttempts (v1alpha1.Status (installation m)) in
    v1alpha1.InstallationStatus status
      = v1alpha1.SyndesisInstallationStatusUpgradeFailureBackoff ∧
    v1alpha1.Reason status = v1alpha1.SyndesisStatusReasonUpgradePodFailed ∧
    v1alpha1.LastUpgradeFailure status = Some now ∧
    (attempts < MaxInt32 → v1alpha1.UpgradeAttempts status = attempts + 1) ∧
    (attempts = MaxInt32 → v1alpha1.UpgradeAttempts status = MinInt32).

(** C6, amended: what a commit does to the attempt counter, the wrap-around
    included. *)
Definition attemptsStepOrWrap (prior target : v1alpha1.Syndesis) : Prop :=
  let before := v1alpha1.UpgradeAttempts (v1alpha1.Status prior) in
  let after := v1alpha1.UpgradeAttempts (v1alpha1.Status target) in
  after = before ∨
  (v1alpha1.InstallationStatus (v1alpha1.Status target)
     = v1alpha1.SyndesisInstallationStatusUpgradeFailureBackoff ∧
   ((before < MaxInt32 ∧ after = before + 1) ∨
    (before = MaxInt32 ∧ after = MinInt32))) ∨
  (v1alpha1.InstallationStatus (v1alpha1.Status target)
     = v1alpha1.SyndesisInstallationStatusInstalled ∧
   after = 0).

(** C9, amended, one call: with an empty cache the call reads the bundled
    template exactly once and keeps the version read, which is empty again
    if the read failed; with a filled cache it does not read the template
    and leaves the receiver as it is. *)
Definition resolvesLazily {W : Type} `{!Cluster W} (m : Machine W) : Prop :=
  let o := Execute m in
  if decide (operatorVersion (this m) = "") then
    ∃ answer, templateReads (transcript o) = [answer] ∧
      targetVersion o = match answer with Ok v => v | Err _ => "" end
  else
    templateReads (transcript o) = [] ∧ this (machine o) = this m.

(** C9, amended, the life of a controller over a number of calls: either
    every call read the template once and each read left the cache cold,
    or the first calls did so, the next call read a version that is not
    empty, that version is the one held at the end, and no call after it
    read the template. *)
Definition readUntilResolved (calls : nat) (reads : list (result string))
    (cache : string) : Prop :=
  ∃ misses, Forall coldRead misses ∧
    ((reads = misses ∧ cache = "" ∧ length misses = calls) ∨
     (∃ v, v ≠ "" ∧ reads = misses ++ [Ok v] ∧ cache = v ∧
           (length misses < calls)%nat)).

(* ================================================================== *)
(** ** Inversion of the monad *)

Section Inversion.
Context {W : Type} `{!Cluster W}.

Lemma bind_inv {A B : Type} (c : M W A) (f : A → M W B)
    (m m' : Machine W) (r : result B) (tr : list Event) :
  (c ≫= f) m = {| returned := r; machine := m'; transcript := tr |} →
  (∃ e, c m = {| returned := Err e; machine := m'; transcript := tr |} ∧
        r = Err e) ∨
  (∃ a m1 tr1 tr2,
      c m = {| returned := Ok a; machine := m1; transcript := tr1 |} ∧
      f a m1 = {| returned := r; machine := m'; transcript := tr2 |} ∧
      tr = tr1 ++ tr2).
Proof.
  unfold mbind, M_bind.
  destruct (c m) as [[a|e] m1 tr1].
  - destruct (f a m1) as [r2 m2 tr2] eqn:Hf.
    intros [= <- <- <-]. right. by exists a, m1, tr1, tr2.
  - intros [= <- <- <-]. left. by exists e.
Qed.

Lemma ret_inv {A : Type} (a : A) (m m' : Machine W) r tr :
  @mret (M W) _ A a m = {| returned := r; machine := m'; transcript := tr |} →
  r = Ok a ∧ m' = m ∧ tr = [].
Proof. by intros [= <- <- <-]. Qed.

Lemma fail_inv {A : Type} (e : error) (m m' : Machine W) (r : result A) tr :
  fail e m = {| returned := r; machine := m'; transcript := tr |} →
  r = Err e ∧ m' = m ∧ tr = [].
Proof. by intros [= <- <- <-]. Qed.

Lemma gets_inv {A : Type} (f : Machine W → A) m r m' tr :
  gets f m = {| returned := r; machine := m'; transcript := tr |} →
  r = Ok (f m) ∧ m' = m ∧ tr = [].
Proof. by intros [= <- <- <-]. Qed.

Lemma setOperatorVersion_inv v (m m' : Machine W) r tr :
  setOperatorVersion v m = {| returned := r; machine := m'; transcript := tr |} →
  r = Ok () ∧
  m' = {| this := {| operatorVersion := v |};
          installation := installation m; cluster := cluster m |} ∧
  tr = [].
Proof. by intros [= <- <- <-]. Qed.

Lemma call_inv {A : Type} (op : W → A * W) (event : A → Event) m r m' tr :
  call op event m = {| returned := r; machine := m'; transcript := tr |} →
  ∃ a w, op (cluster m) = (a, w) ∧ r = Ok a ∧
         m' = {| this := this m; installation := installation m;
                 cluster := w |} ∧
         tr = [event a].
Proof.
  unfold call. destruct (op (cluster m)) as [a w].
  intros [= <- <- <-]. by exists a, w.
Qed.

Lemma callR_inv {A : Type} (op : W → result A * W) (event : result A → Event)
    (m m' : Machine W) r tr :
  callR op event m = {| returned := r; machine := m'; transcript := tr |} →
  ∃ w, op (cluster m) = (r, w) ∧
       m' = {| this := this m; installation := installation m;
               cluster := w |} ∧
       tr = [event r].
Proof.
  unfold callR. intros H.
  apply bind_inv in H as [(e & H & _)|(a & m1 & tr1 & tr2 & Hc & H & ->)].
  { apply call_inv in H as (? & ? & _ & ? & _); discriminate. }
  apply call_inv in Hc as (a' & w & Hop & Ha & -> & ->).
  injection Ha as <-. exists w.
  destruct a as [a|e]; simpl in H.
  - apply ret_inv in H as (-> & -> & ->). by rewrite app_nil_r.
  - apply fail_inv in H as (-> & -> & ->). by rewrite app_nil_r.
Qed.

Lemma callE_inv (op : W → option error * W) (event : option error → Event)
    (m m' : Machine W) r tr :
  callE op event m = {| returned := r; machine := m'; transcript := tr |} →
  ∃ err w, op (cluster m) = (err, w) ∧
       r = match err with Some e => Err e | None => Ok () end ∧
       m' = {| this := this m; installation := installation m;
               cluster := w |} ∧
       tr = [event err].
Proof.
  unfold callE. intros H.
  apply bind_inv in H as [(e & H & _)|(a & m1 & tr1 & tr2 & Hc & H & ->)].
  { apply call_inv in H as (? & ? & _ & ? & _); discriminate. }
  apply call_inv in Hc as (a' & w & Hop & Ha & -> & ->).
  injection Ha as <-. exists a, w.
  destruct a as [e|]; simpl in H.
  - apply fail_inv in H as (-> & -> & ->). by rewrite app_nil_r.
  - apply ret_inv in H as (-> & -> & ->). by rewrite app_nil_r.
Qed.

(** The loading loop only loads: it returns the resources it was given
    followed by the loaded ones, or the first failure. *)
Lemma loadResources_inv rawResources resources (m m' : Machine W) r tr :
  loadResources rawResources resources m
    = {| returned := r; machine := m'; transcript := tr |} →
  this m' = this m ∧ installation m' = installation m ∧
  ∃ answers, tr = loadEvents answers ∧
    ((r = Ok (resources ++ loaded tr) ∧
      length (loaded tr) = length rawResources ∧ loadFailures tr = [] ∧
      loadRequests tr = zip (runtime.Raw <$> rawResources) (Ok <$> loaded tr)) ∨
     (∃ e, r = Err e ∧ loadFailures tr = [e] ∧
           (length (loaded tr) < length rawResources)%nat ∧
           ∃ raw, last answers = Some (raw, Err e))).
Proof.
  revert resources m tr.
  induction rawResources as [|obj rest IH]; intros resources m tr H; simpl in H.
  - apply ret_inv in H as (-> & -> & ->). split_and!; [done..|].
    exists []. split; [done|]. left. by rewrite app_nil_r.
  - apply bind_inv in H as [(e & H & ->)|(res & m1 & tr1 & tr2 & Hc & H & ->)].
    + apply callR_inv in H as (w & Hop & -> & ->).
      split_and!; [done..|].
      exists [(runtime.Raw obj, Err e)]. split; [done|].
      right. exists e. simpl. split_and!; [done..|lia|by eexists].
    + apply callR_inv in Hc as (w & Hop & -> & ->).
      apply IH in H as (Hthis & Hinst & answers & -> & Hcases).
      split_and!; [done..|].
      exists ((runtime.Raw obj, Ok res) :: answers). split; [done|].
      destruct Hcases as [(-> & Hlen & Hfail & Hzip)
                         |(e & -> & Hfail & Hlen & raw & Hlast)].
      * left. simpl. rewrite <- (assoc_L (++)). simpl.
        split_and!; [done| |done|]; [by rewrite Hlen|].
        f_equal. exact Hzip.
      * right. exists e. simpl. split_and!; [done..|lia|].
        exists raw. by destruct answers.
Qed.

(** The apply loop only applies, always with force, the stamped resources
    in order, and stops at the first failure. *)
Lemma applyResources_inv resources syndesis (m m' : Machine W) r tr :
  applyResources resources syndesis m
    = {| returned := r; machine := m'; transcript := tr |} →
  this m' = this m ∧ installation m' = installation m ∧
  ∃ answers, tr = applyEvents answers ∧
    answers.*1 `prefix_of`
      ((λ res, setNamespaceAndOwnerReference res syndesis) <$> resources) ∧
    ((r = Ok () ∧
      answers = (λ res, (setNamespaceAndOwnerReference res syndesis, None))
                  <$> resources) ∨
     (∃ e res, r = Err e ∧ last answers = Some (res, Some e) ∧
                omap snd answers = [e])).
Proof.
  revert m tr.
  induction resources as [|res rest IH]; intros m tr H; simpl in H.
  - apply ret_inv in H as (-> & -> & ->). split_and!; [done..|].
    exists []. split_and!; [done|done|]. by left.
  - apply bind_inv in H as [(e & H & ->)|([] & m1 & tr1 & tr2 & Hc & H & ->)].
    + apply callE_inv in H as (err & w & Hop & Hr & -> & ->).
      destruct err as [e'|]; [|discriminate]. injection Hr as <-.
      split_and!; [done..|].
      exists [(setNamespaceAndOwnerReference res syndesis, Some e)].
      split_and!; [done| |].
      * simpl. apply prefix_cons, prefix_nil.
      * right. by eexists _, _.
    + apply callE_inv in Hc as (err & w & Hop & Hr & -> & ->).
      destruct err as [e'|]; [discriminate|].
      apply IH in H as (Hthis & Hinst & answers & -> & Hpre & Hcases).
      split_and!; [done..|].
      exists ((setNamespaceAndOwnerReference res syndesis, None) :: answers).
      split_and!; [done| |].
      * simpl. by apply prefix_cons.
      * destruct Hcases as [(-> & ->)|(e & res' & -> & Hlast)].
        -- by left.
        -- right. exists e, res'. destruct Hlast as [Hlast Hone].
           split_and!; [done| |done]. by destruct answers.
Qed.
End Inversion.

(* ================================================================== *)
(** ** Transcripts of compound runs *)

Section Transcripts.
Implicit Types tr : list Event.

Local Ltac by_cases tr1 :=
  induction tr1 as [|ev tr1 IH]; [done|];
  destruct ev; simpl; repeat case_match; simplify_eq; by rewrite ?IH.

Lemma templateReads_app tr1 tr2 :
  templateReads (tr1 ++ tr2) = templateReads tr1 ++ templateReads tr2.
Proof. by_cases tr1. Qed.
Lemma namespaceReads_app tr1 tr2 :
  namespaceReads (tr1 ++ tr2) = namespaceReads tr1 ++ namespaceReads tr2.
Proof. by_cases tr1. Qed.
Lemma rendered_app tr1 tr2 : rendered (tr1 ++ tr2) = rendered tr1 ++ rendered tr2.
Proof. by_cases tr1. Qed.
Lemma loaded_app tr1 tr2 : loaded (tr1 ++ tr2) = loaded tr1 ++ loaded tr2.
Proof. by_cases tr1. Qed.
Lemma loadFailures_app tr1 tr2 :
  loadFailures (tr1 ++ tr2) = loadFailures tr1 ++ loadFailures tr2.
Proof. by_cases tr1. Qed.
Lemma fetched_app tr1 tr2 : fetched (tr1 ++ tr2) = fetched tr1 ++ fetched tr2.
Proof. by_cases tr1. Qed.
Lemma applied_app tr1 tr2 : applied (tr1 ++ tr2) = applied tr1 ++ applied tr2.
Proof. by_cases tr1. Qed.
Lemma updates_app tr1 tr2 : updates (tr1 ++ tr2) = updates tr1 ++ updates tr2.
Proof. by_cases tr1. Qed.
Lemma committed_app tr1 tr2 :
  committed (tr1 ++ tr2) = committed tr1 ++ committed tr2.
Proof. by_cases tr1. Qed.

Lemma committed_updates tr : committed tr = (updates tr).*1.
Proof. by_cases tr. Qed.

(** A loop's transcript shows nothing but the loop's own calls. *)
Lemma templateReads_loadEvents l : templateReads (loadEvents l) = [].
Proof. by induction l. Qed.
Lemma namespaceReads_loadEvents l : namespaceReads (loadEvents l) = [].
Proof. by induction l. Qed.
Lemma rendered_loadEvents l : rendered (loadEvents l) = [].
Proof. by induction l. Qed.
Lemma fetched_loadEvents l : fetched (loadEvents l) = [].
Proof. by induction l. Qed.
Lemma applied_loadEvents l : applied (loadEvents l) = [].
Proof. by induction l. Qed.
Lemma updates_loadEvents l : updates (loadEvents l) = [].
Proof. by induction l. Qed.
Lemma committed_loadEvents l : committed (loadEvents l) = [].
Proof. by induction l. Qed.

Lemma templateReads_applyEvents l : templateReads (applyEvents l) = [].
Proof. by induction l. Qed.
Lemma namespaceReads_applyEvents l : namespaceReads (applyEvents l) = [].
Proof. by induction l. Qed.
Lemma rendered_applyEvents l : rendered (applyEvents l) = [].
Proof. by induction l. Qed.
Lemma loaded_applyEvents l : loaded (applyEvents l) = [].
Proof. by induction l. Qed.
Lemma loadFailures_applyEvents l : loadFailures (applyEvents l) = [].
Proof. by induction l. Qed.
Lemma fetched_applyEvents l : fetched (applyEvents l) = [].
Proof. by induction l. Qed.
Lemma updates_applyEvents l : updates (applyEvents l) = [].
Proof. by induction l. Qed.
Lemma committed_applyEvents l : committed (applyEvents l) = [].
Proof. by induction l. Qed.
Lemma applied_applyEvents l :
  applied (applyEvents l) = (λ x, (x.1, true, x.2)) <$> l.
Proof. induction l as [|x l IH]; [done|]. simpl. by f_equal. Qed.
End Transcripts.

Create Rewrite HintDb transcript.

#[export] Hint Rewrite
  templateReads_app namespaceReads_app rendered_app loaded_app
  loadFailures_app fetched_app applied_app updates_app committed_app
  templateReads_loadEvents namespaceReads_loadEvents rendered_loadEvents
  fetched_loadEvents applied_loadEvents updates_loadEvents
  committed_loadEvents
  templateReads_applyEvents namespaceReads_applyEvents rendered_applyEvents
  loaded_applyEvents loadFailures_applyEvents fetched_applyEvents
  updates_applyEvents committed_applyEvents applied_applyEvents
  @app_nil_r @app_nil_l
  : transcript.

(* ================================================================== *)
(** ** Further transcripts of compound runs *)

Section MoreTranscripts.
Implicit Types tr : list Event.

Local Ltac by_cases tr1 :=
  induction tr1 as [|ev tr1 IH]; [done|];
  destruct ev; simpl; repeat case_match; simplify_eq; by rewrite ?IH.

Lemma renderRequests_app tr1 tr2 :
  renderRequests (tr1 ++ tr2) = renderRequests tr1 ++ renderRequests tr2.
Proof. by_cases tr1. Qed.
Lemma loadRequests_app tr1 tr2 :
  loadRequests (tr1 ++ tr2) = loadRequests tr1 ++ loadRequests tr2.
Proof. by_cases tr1. Qed.
Lemma namespaceRequests_app tr1 tr2 :
  namespaceRequests (tr1 ++ tr2) = namespaceRequests tr1 ++ namespaceRequests tr2.
Proof. by_cases tr1. Qed.
Lemma fetchRequests_app tr1 tr2 :
  fetchRequests (tr1 ++ tr2) = fetchRequests tr1 ++ fetchRequests tr2.
Proof. by_cases tr1. Qed.
Lemma clockReads_app tr1 tr2 :
  clockReads (tr1 ++ tr2) = clockReads tr1 ++ clockReads tr2.
Proof. by_cases tr1. Qed.
Lemma writes_app tr1 tr2 : writes (tr1 ++ tr2) = writes tr1 ++ writes tr2.
Proof. by_cases tr1. Qed.
Lemma failures_app tr1 tr2 :
  failures (tr1 ++ tr2) = failures tr1 ++ failures tr2.
Proof. by_cases tr1. Qed.

Lemma renderRequests_loadEvents l : renderRequests (loadEvents l) = [].
Proof. by induction l. Qed.
Lemma namespaceRequests_loadEvents l : namespaceRequests (loadEvents l) = [].
Proof. by induction l. Qed.
Lemma writes_loadEvents l : writes (loadEvents l) = [].
Proof. by induction l. Qed.
Lemma fetchRequests_loadEvents l : fetchRequests (loadEvents l) = [].
Proof. by induction l. Qed.
Lemma clockReads_loadEvents l : clockReads (loadEvents l) = [].
Proof. by induction l. Qed.
Lemma loadRequests_loadEvents l : loadRequests (loadEvents l) = l.
Proof. induction l as [|[raw answer] l IH]; [done|]. simpl. by rewrite IH. Qed.
Lemma failures_loadEvents l : failures (loadEvents l) = loadFailures (loadEvents l).
Proof.
  induction l as [|[raw [res|e]] l IH]; [done|..]; simpl; by rewrite IH.
Qed.

Lemma renderRequests_applyEvents l : renderRequests (applyEvents l) = [].
Proof. by induction l. Qed.
Lemma loadRequests_applyEvents l : loadRequests (applyEvents l) = [].
Proof. by induction l. Qed.
Lemma namespaceRequests_applyEvents l : namespaceRequests (applyEvents l) = [].
Proof. by induction l. Qed.
Lemma writes_applyEvents l : writes (applyEvents l) = applyEvents l.
Proof. induction l as [|x l IH]; [done|]. simpl. by rewrite IH. Qed.
Lemma fetchRequests_applyEvents l : fetchRequests (applyEvents l) = [].
Proof. by induction l. Qed.
Lemma clockReads_applyEvents l : clockReads (applyEvents l) = [].
Proof. by induction l. Qed.
Lemma failures_applyEvents l : failures (applyEvents l) = omap snd l.
Proof.
  induction l as [|[res [e|]] l IH]; [done|..]; simpl; by rewrite IH.
Qed.

(** A loop in which every apply succeeded left no failure. *)
Lemma omap_snd_applied {A : Type} (f : A → runtime.Object) (l : list A) :
  omap snd ((λ res, (f res, @None error)) <$> l) = [].
Proof. by induction l. Qed.

Lemma last_applyEvents l :
  last (applyEvents l) = (λ x, EvApply x.1 true x.2) <$> last l.
Proof. apply fmap_last. Qed.
Lemma last_loadEvents l :
  last (loadEvents l) = (λ x, EvLoad x.1 x.2) <$> last l.
Proof. apply fmap_last. Qed.

Lemma follow_app stage tr1 tr2 :
  follow stage (tr1 ++ tr2) = follow stage tr1 ≫= λ stage', follow stage' tr2.
Proof.
  revert stage. induction tr1 as [|ev tr1 IH]; intros stage; simpl; [done|].
  destruct (next stage ev); [apply IH|done].
Qed.

Lemma follow_loads stage l :
  stage = AfterRender ∨ stage = AfterLoad →
  follow stage (loadEvents l)
    = Some (match l with [] => stage | _ :: _ => AfterLoad end).
Proof.
  revert stage. induction l as [|x l IH]; intros stage Hstage; [done|].
  simpl. destruct Hstage as [-> | ->]; simpl.
  all: fold (loadEvents l); rewrite IH by auto; by destruct l.
Qed.

Lemma follow_applies stage l :
  stage = AfterGet ∨ stage = AfterApply →
  follow stage (applyEvents l)
    = Some (match l with [] => stage | _ :: _ => AfterApply end).
Proof.
  revert stage. induction l as [|x l IH]; intros stage Hstage; [done|].
  simpl. destruct Hstage as [-> | ->]; simpl.
  all: fold (applyEvents l); rewrite IH by auto; by destruct l.
Qed.
End MoreTranscripts.

#[export] Hint Rewrite
  renderRequests_app loadRequests_app fetchRequests_app clockReads_app
  failures_app namespaceRequests_app
  writes_app writes_loadEvents writes_applyEvents
  namespaceRequests_loadEvents namespaceRequests_applyEvents
  renderRequests_loadEvents fetchRequests_loadEvents clockReads_loadEvents
  loadRequests_loadEvents failures_loadEvents
  renderRequests_applyEvents loadRequests_applyEvents
  fetchRequests_applyEvents clockReads_applyEvents failures_applyEvents
  @omap_snd_applied
  : transcript.

(** Inversion of a run of the action: one goal per path through it, with
    the answers of the collaborators as hypotheses and the machine and the
    transcript spelled out. *)
Ltac exec_inv H :=
  cbv beta zeta in H;
  lazymatch type of H with
  | @mbind _ _ _ _ _ _ _ = _ =>
      let e := fresh "e" in
      let a := fresh "a" in
      let m1 := fresh "m" in
      let tr1 := fresh "tr" in
      let tr2 := fresh "tr" in
      let Hc := fresh "Hc" in
      apply bind_inv in H as [(e & H & ?)|(a & m1 & tr1 & tr2 & Hc & H & ?)];
      [ exec_inv H | exec_inv Hc; exec_inv H ]
  | @mret _ _ _ _ _ = _ => apply ret_inv in H as (? & ? & ?); simplify_eq
  | fail _ _ = _ => apply fail_inv in H as (? & ? & ?); simplify_eq
  | gets _ _ = _ => apply gets_inv in H as (? & ? & ?); simplify_eq
  | setOperatorVersion _ _ = _ =>
      apply setOperatorVersion_inv in H as (? & ? & ?); simplify_eq
  | lift ?r _ = _ => destruct r eqn:?; simpl in H; exec_inv H
  | call _ _ _ = _ =>
      let Hop := fresh "Hop" in
      apply call_inv in H as (? & ? & Hop & ? & ? & ?); simplify_eq
  | callR _ _ _ = _ =>
      let Hop := fresh "Hop" in
      apply callR_inv in H as (? & Hop & ? & ?); simplify_eq
  | callE _ _ _ = _ =>
      let Hop := fresh "Hop" in
      let err := fresh "err" in
      apply callE_inv in H as (err & ? & Hop & ? & ? & ?);
      destruct err; simplify_eq
  | sdk_Update_ _ _ = _ => unfold sdk_Update_ in H; exec_inv H
  | upgradeCompleted _ _ _ = _ => unfold upgradeCompleted in H; exec_inv H
  | getUpgradeResources _ _ = _ => unfold getUpgradeResources in H; exec_inv H
  | getUpgradePodFromNamespace _ _ _ = _ =>
      unfold getUpgradePodFromNamespace in H; exec_inv H
  | loadResources _ _ _ = _ =>
      let Hload := fresh "Hload" in
      apply loadResources_inv in H as (? & ? & ? & ? & Hload);
      destruct Hload as [(? & ? & ? & ?)|(? & ? & ? & ? & ? & ?)]; simplify_eq
  | applyResources _ _ _ = _ =>
      let Happly := fresh "Happly" in
      let Hprefix := fresh "Hprefix" in
      apply applyResources_inv in H as (? & ? & ? & ? & Hprefix & Happly);
      destruct Happly as [(? & ?)|(? & ? & ? & ? & ?)]; simplify_eq
  | Execute _ = _ => unfold Execute in H; exec_inv H
  | (if ?b then _ else _) _ = _ => destruct b eqn:?; exec_inv H
  | (match ?x with _ => _ end) _ = _ => destruct x eqn:?; exec_inv H
  | _ => idtac
  end.

(** [exec H] inverts the run [H : Execute m = _], names the machines the
    loops leave behind and normalises the transcripts. *)
Ltac exec H :=
  exec_inv H; simpl in *; simplify_eq;
  repeat match goal with
  | Hm : this ?m = _ |- _ => is_var m; destruct m; simpl in *; simplify_eq
  end;
  repeat (progress (autorewrite with transcript in *; simpl in * ));
  simplify_eq.

(** What the branch conditions of a path say, and the paths whose
    conditions contradict each other or the hypotheses at hand. *)
Ltac path_facts :=
  repeat match goal with
  | H : (_ || _) = false |- _ => apply orb_false_iff in H as [? ?]
  | H : (_ || _) = true |- _ => apply orb_true_iff in H as [?|?]
  | H : decide _ = _ |- _ => clear H
  | H : ¬ (_ ≠ _) |- _ => apply dec_stable in H
  | H : context [k8serrors.IsNotFound None] |- _ =>
      change (k8serrors.IsNotFound None) with false in H
  end.

Ltac prune :=
  path_facts; unfold v1.PodSucceeded, v1.PodFailed in *; try congruence.

(** The last entry of a transcript that ends in a known call. *)
Ltac last_event H :=
  repeat first
    [ rewrite last_snoc in H
    | rewrite last_app_cons in H
    | match type of H with
      | context [last (?x :: ?l ++ ?r)] =>
          change (last (x :: l ++ r)) with (last ((x :: l) ++ r)) in H
      end ];
  simpl in H.

(* ================================================================== *)
(** ** The task locator and the counter *)

(** [findUpgradePod] answers with a position exactly when that position
    holds a pod and no earlier one does. *)
Lemma findUpgradePod_Ok resources i pod :
  findUpgradePod resources = Ok (i, pod) ↔
  resources !! i = Some (runtime.ObjPod pod) ∧
  ∀ j res, (j < i)%nat → resources !! j = Some res → runtime.isPod res = false.
Proof.
  revert i. induction resources as [|res rest IH]; intros i; simpl.
  - split; [done|]. by intros [? _].
  - destruct res as [pod'|tm om body].
    + split.
      * intros [= <- <-]. split; [done|]. intros j res ?. lia.
      * intros [Hi Hno]. destruct i as [|i]; [by simplify_eq/=|].
        by specialize (Hno 0%nat _ ltac:(lia) eq_refl).
    + split.
      * destruct (findUpgradePod rest) as [[i' pod']|e]; [|done].
        intros [= <- <-]. destruct (IH i') as [[Hi Hno] _]; [done|].
        split; [done|].
        intros [|j] res Hj Hres; simplify_eq/=; [done|].
        apply (Hno j); [lia|done].
      * intros [Hi Hno]. destruct i as [|i]; [done|]. simpl in Hi.
        destruct (IH i) as [_ Hfind]. rewrite Hfind; [done|].
        split; [done|]. intros j res Hj Hres.
        apply (Hno (S j)); [lia|done].
Qed.

Lemma findUpgradePod_Err resources :
  (∀ res, res ∈ resources → runtime.isPod res = false) →
  findUpgradePod resources = Err (errors.New "upgrade pod not found").
Proof.
  induction resources as [|res rest IH]; intros Hno; simpl; [done|].
  destruct res as [pod|tm om body].
  - by specialize (Hno (runtime.ObjPod pod) ltac:(left)).
  - rewrite IH; [done|]. intros res Hres. apply Hno. by right.
Qed.

(** Within its range [int32] changes nothing. *)
Lemma int32_id z : MinInt32 ≤ z ≤ MaxInt32 → int32 z = z.
Proof.
  unfold MinInt32, MaxInt32, int32. intros Hz.
  rewrite Z.mod_small; lia.
Qed.

(** At the top of the range the increment wraps to the bottom. *)
Lemma int32_wraps : int32 (MaxInt32 + 1) = MinInt32.
Proof. reflexivity. Qed.

(** An entry of the apply loop's transcript comes from the stamped list,
    at the same position, and was applied with force. *)
Lemma applied_lookup (answers : list (runtime.Object * option error))
    (stamped : list runtime.Object) k res force err :
  answers.*1 `prefix_of` stamped →
  ((λ x, (x.1, true, x.2)) <$> answers) !! k = Some (res, force, err) →
  stamped !! k = Some res ∧ force = true.
Proof.
  intros Hprefix Hk. rewrite list_lookup_fmap in Hk.
  destruct (answers !! k) as [[res' err']|] eqn:Hanswer; simplify_eq/=.
  split; [|done]. eapply prefix_lookup_Some; [|done].
  by rewrite list_lookup_fmap, Hanswer.
Qed.

(* ================================================================== *)
(** ** The cache of the target version *)

Section Cache.
Context {W : Type} `{!Cluster W}.

(** One call reads the bundled template once if the cache is empty, and
  keeps what a successful read gave; it does not read it otherwise. *)
Lemma Execute_template_reads (m : Machine W) :
if decide (operatorVersion (this m) = "") then
  ∃ answer, templateReads (transcript (Execute m)) = [answer] ∧
    operatorVersion (this (machine (Execute m)))
      = match answer with Ok v => v | Err _ => "" end
else
  templateReads (transcript (Execute m)) = [] ∧
  this (machine (Execute m)) = this m.
Proof.
destruct (Execute m) as [r m' tr] eqn:HE. simpl.
exec HE.
all: case_decide; try done.
all: try by eauto.
all: try by destruct (this m).
Qed.

(** Once the cache is filled no later call reads the template. *)
Lemma reconcileAll_warm triggers a (w : W) :
operatorVersion a ≠ "" →
let '(a', _, tr) := reconcileAll triggers a w in
templateReads tr = [] ∧ a' = a.
Proof.
revert a w. induction triggers as [|syndesis rest IH]; intros a w Ha; simpl.
- done.
- pose proof (Execute_template_reads
    {| this := a; installation := syndesis; cluster := w |}) as Hone.
  simpl in Hone. case_decide; [done|]. destruct Hone as [Hreads Hthis].
  rewrite Hthis.
  specialize (IH a (cluster (machine (Execute
    {| this := a; installation := syndesis; cluster := w |}))) Ha).
  destruct (reconcileAll rest a _) as [[a' w'] tr].
  destruct IH as [IH ->]. split; [|done].
  by rewrite templateReads_app, Hreads, IH.
Qed.
End Cache.

(* ================================================================== *)
(** ** The properties of the reconciliation *)

Section Claims.
Context {W : Type} `{!Cluster W}.

(** C1, amended.  When the installation has [forceUpgrade] set and the live
    version differs from the target version, a call of [Execute] that
    returns without error has loaded every manifest of the rendered set,
    has applied each of the resources, in the order of the rendering,
    stamped and with [forceReplace = true], and has then issued one status
    update, which clears [forceUpgrade]; the applies come first, the update
    is the last write, and this holds whether or not the live upgrade pod
    exists. *)
Theorem C1_forced_upgrade_applies_and_clears (m : Machine W) :
  v1alpha1.ForceUpgrade (v1alpha1.Status (installation m)) = true →
  returned (Execute m) = Ok () →
  namespaceReads (transcript (Execute m)) ≠ [Ok (targetVersion (Execute m))] →
  forcedUpgradeRun m.
Proof.
  unfold forcedUpgradeRun, loadedTheRendering, targetVersion, prepared.
  destruct (Execute m) as [r m' tr] eqn:HE. simpl.
  intros Hforce Hret Hns.
  exec HE; prune.
  all: split; [by eauto|].
  all: eexists _, _; split; [done|].
  all: unfold applyEvents; rewrite <- !list_fmap_compose; done.
Qed.

(** C2, amended.  When the upgrade pod is present, [forceUpgrade] is not
    set and the pod's phase is failed, the one status update that is issued
    has the phase UpgradeFailureBackoff, the reason "upgrade pod failed"
    and a failure time; its attempt count is the prior count plus one if
    the prior count is below the largest [int32], and the smallest [int32]
    if the prior count is the largest. *)
Theorem C2_failed_task_backs_off (m : Machine W) pod :
  validAttempts (installation m) →
  v1alpha1.ForceUpgrade (v1alpha1.Status (installation m)) = false →
  fetched (transcript (Execute m)) = [(pod, None)] →
  v1.Phase (v1.Status pod) = v1.PodFailed →
  failureBackoff m.
Proof.
  unfold failureBackoff, validAttempts.
  destruct (Execute m) as [r m' tr] eqn:HE. simpl.
  intros Hvalid Hforce Hget Hphase.
  exec HE; prune.
  all: eexists _, _; split; [done|]; simpl.
  all: split_and!; try done.
  all: unfold v1alpha1.DeepCopy.
  all: try (intros Hlt; apply int32_id; unfold MinInt32, MaxInt32 in *; lia).
  all: intros ->; apply int32_wraps.
Qed.

(** C3.  For an installation in phase Upgrading whose live version equals
  the target version and whose upgrade pod is not found, one call issues
  one status update, with phase Installed, the target version, no
  attempts, no failure time and [forceUpgrade] off, whatever the prior
  attempt count was. *)
Theorem C3_current_installation_completes (m : Machine W) pod err :
CanExecute (this m) (installation m) = true →
fetched (transcript (Execute m)) = [(pod, err)] →
k8serrors.IsNotFound err = true →
namespaceReads (transcript (Execute m)) = [Ok (targetVersion (Execute m))] →
∃ target, committed (transcript (Execute m)) = [target] ∧
  let status := v1alpha1.Status target in
  v1alpha1.InstallationStatus status
    = v1alpha1.SyndesisInstallationStatusInstalled ∧
  v1alpha1.Version status = targetVersion (Execute m) ∧
  v1alpha1.UpgradeAttempts status = 0 ∧
  v1alpha1.LastUpgradeFailure status = None ∧
  v1alpha1.ForceUpgrade status = false.
Proof.
unfold targetVersion.
destruct (Execute m) as [r m' tr] eqn:HE. simpl.
intros Hcan Hget Hnf Hns.
exec HE; prune.
all: by eauto 10.
Qed.

(** C4.  When the upgrade pod is present, [forceUpgrade] is not set, the
  pod has succeeded and the live version read again still differs from
  the target version, the one status update that is issued has
  [forceUpgrade] set and every other status field as it was. *)
Theorem C4_success_without_version_change_forces (m : Machine W) pod before after :
v1alpha1.ForceUpgrade (v1alpha1.Status (installation m)) = false →
fetched (transcript (Execute m)) = [(pod, None)] →
v1.Phase (v1.Status pod) = v1.PodSucceeded →
namespaceReads (transcript (Execute m)) = [Ok before; Ok after] →
after ≠ targetVersion (Execute m) →
∃ target, committed (transcript (Execute m)) = [target] ∧
  let status := v1alpha1.Status target in
  let prior := v1alpha1.Status (installation m) in
  v1alpha1.ForceUpgrade status = true ∧
  v1alpha1.InstallationStatus status = v1alpha1.InstallationStatus prior ∧
  v1alpha1.Reason status = v1alpha1.Reason prior ∧
  v1alpha1.Version status = v1alpha1.Version prior ∧
  v1alpha1.UpgradeAttempts status = v1alpha1.UpgradeAttempts prior ∧
  v1alpha1.LastUpgradeFailure status = v1alpha1.LastUpgradeFailure prior.
Proof.
unfold targetVersion.
destruct (Execute m) as [r m' tr] eqn:HE. simpl.
intros Hforce Hget Hphase Hns Hv.
exec HE; prune.
all: by eauto 10.
Qed.

(** C5.  A call that finds [forceUpgrade] set and returns without error
  has issued exactly one status update, the cluster accepted it, and it
  has [forceUpgrade] off. *)
Theorem C5_force_flag_is_consumed (m : Machine W) :
v1alpha1.ForceUpgrade (v1alpha1.Status (installation m)) = true →
returned (Execute m) = Ok () →
∃ target, updates (transcript (Execute m)) = [(target, None)] ∧
  committed (transcript (Execute m)) = [target] ∧
  v1alpha1.ForceUpgrade (v1alpha1.Status target) = false.
Proof.
destruct (Execute m) as [r m' tr] eqn:HE. simpl.
intros Hforce Hret.
exec HE; prune.
all: by eauto 10.
Qed.

(** C6, amended.  Every status update a call issues leaves the attempt
    count as it was, or has phase UpgradeFailureBackoff and the count plus
    one (the smallest [int32] when the prior count is the largest), or has
    phase Installed and the count 0. *)
Theorem C6_attempts_step_or_reset (m : Machine W) target :
  validAttempts (installation m) →
  target ∈ committed (transcript (Execute m)) →
  attemptsStepOrWrap (installation m) target.
Proof.
  unfold attemptsStepOrWrap, validAttempts.
  destruct (Execute m) as [r m' tr] eqn:HE. simpl.
  intros Hvalid Hin.
  exec HE.
  all: try by apply elem_of_nil in Hin.
  all: apply list_elem_of_singleton in Hin as ->; simpl.
  all: try by (left; done).
  all: try by (right; right; done).
  all: right; left; split; [done|].
  all: unfold v1alpha1.DeepCopy.
  all: destruct (decide (v1alpha1.UpgradeAttempts
                           (v1alpha1.Status (installation m)) = MaxInt32))
         as [Hmax|Hmax].
  all: try (right; split; [done|]; rewrite Hmax; apply int32_wraps).
  all: left; split; [lia|]; apply int32_id; unfold MinInt32, MaxInt32 in *; lia.
Qed.

(** C7.  Of the rendered and loaded manifest sequence the task locator
  returns the first pod: it answers with a position exactly when that
  position holds a pod and no earlier position does.  If the sequence
  holds no pod, the call returns the error "upgrade pod not found",
  nothing is applied, no status update is issued and the installation
  object is as it was. *)
Theorem C7_task_locator (m : Machine W) raws :
rendered (transcript (Execute m)) = [Ok raws] →
length (loaded (transcript (Execute m))) = length raws →
let resources := loaded (transcript (Execute m)) in
(∀ i pod,
    findUpgradePod resources = Ok (i, pod) ↔
    resources !! i = Some (runtime.ObjPod pod) ∧
    ∀ j res, (j < i)%nat → resources !! j = Some res →
             runtime.isPod res = false) ∧
((∀ res, res ∈ resources → runtime.isPod res = false) →
 returned (Execute m) = Err (errors.New "upgrade pod not found") ∧
 updates (transcript (Execute m)) = [] ∧
 committed (transcript (Execute m)) = [] ∧
 applied (transcript (Execute m)) = [] ∧
 installation (machine (Execute m)) = installation m).
Proof.
intros Hrender Hlen resources.
split; [intros i pod; apply findUpgradePod_Ok|].
subst resources. revert Hrender Hlen.
destruct (Execute m) as [r m' tr] eqn:HE. simpl.
intros Hrender Hlen Hno.
exec HE; try lia.
all: match goal with
     | Hfind : findUpgradePod _ = _ |- _ =>
         rewrite findUpgradePod_Err in Hfind by done; by simplify_eq
     end.
Qed.

(** C8.  A call that returns an error from resolving the target version,
  resolving the live version, rendering, loading, locating the task or
  fetching the live task has issued no status update, and the
  installation object is as it was. *)
Theorem C8_early_errors_leave_status_alone (m : Machine W) step :
failingStep (Execute m) = Some step →
beforeAnyWrite step = true →
updates (transcript (Execute m)) = [] ∧
committed (transcript (Execute m)) = [] ∧
installation (machine (Execute m)) = installation m.
Proof.
unfold failingStep.
destruct (Execute m) as [r m' tr] eqn:HE. simpl.
intros Hstep Hbefore.
exec HE.
all: try done.
all: last_event Hstep; simplify_eq.
Qed.

(** C9, amended.  A call that finds the cache empty reads the bundled
    template exactly once and keeps the version it read; a call that finds
    it filled does not read the template.  So over the life of a controller
    that starts with an empty cache, either every call read the template
    once and every read failed or gave the empty version, or the calls did
    so up to the first read of a non-empty version: that version is the one
    the controller holds from then on, and the template is not read
    again. *)
Theorem C9_template_read_once (triggers : list v1alpha1.Syndesis) (w : W) :
  (∀ m : Machine W, resolvesLazily m) ∧
  let '(a, _, tr) := reconcileAll triggers {| operatorVersion := "" |} w in
  readUntilResolved (length triggers) (templateReads tr) (operatorVersion a).
Proof.
  split; [intros m; apply Execute_template_reads|].
  revert w. induction triggers as [|syndesis rest IH]; intros w; simpl.
  - exists []. split; [done|]. by left.
  - pose proof (Execute_template_reads
      {| this := {| operatorVersion := "" |}; installation := syndesis;
         cluster := w |}) as Hone.
    simpl in Hone. destruct Hone as (answer & Hreads & Hcache).
    destruct (Execute _) as [r [a1 s1 w1] tr1]. simpl in *.
    destruct a1 as [v1]. simpl in *.
    destruct (decide (v1 = "")) as [->|Hv].
    + specialize (IH w1). destruct (reconcileAll rest _ w1) as [[a' w'] tr].
      destruct IH as (misses & Hmisses & Hshape).
      exists (answer :: misses). split.
      * constructor; [|done]. destruct answer; simpl; [done|done].
      * rewrite templateReads_app, Hreads. simpl.
        destruct Hshape as [(-> & -> & <-)|(v & Hv & -> & -> & Hlen)].
        -- by left.
        -- right. exists v. split_and!; [done..|lia].
    + pose proof (reconcileAll_warm rest {| operatorVersion := v1 |} w1 Hv) as Hwarm.
      destruct (reconcileAll rest _ w1) as [[a' w'] tr].
      destruct Hwarm as [Htr ->].
      exists []. split; [done|]. right. exists v1.
      rewrite templateReads_app, Hreads, Htr. simpl.
      destruct answer; simplify_eq/=; split_and!; [done..|lia].
Qed.

(** C10.  Whenever a resource is applied, the rendered set holds an upgrade
  pod, and the resource is the stamped entry, at the same position, of
  the resource list in which that pod already carries the service account
  name "syndesis-operator": the name is written before the first resource
  is applied, and the pod is applied with it. *)
Theorem C10_service_account_before_apply (m : Machine W) k res force err :
applied (transcript (Execute m)) !! k = Some (res, force, err) →
∃ i pod,
  findUpgradePod (loaded (transcript (Execute m))) = Ok (i, pod) ∧
  let resources := prepared (loaded (transcript (Execute m))) i pod in
  (∃ task, resources !! i = Some (runtime.ObjPod task) ∧
     v1.ServiceAccountName (v1.Spec task) = "syndesis-operator") ∧
  (∃ res0, resources !! k = Some res0 ∧
     res = setNamespaceAndOwnerReference res0 (installation m)) ∧
  (k = i → ∃ task, res = runtime.ObjPod task ∧
     v1.ServiceAccountName (v1.Spec task) = "syndesis-operator").
Proof.
unfold prepared.
destruct (Execute m) as [r m' tr] eqn:HE. simpl.
intros Hk.
exec HE; try done.
all: eapply applied_lookup in Hk as [Hk ->]; [|done].
all: rewrite list_lookup_fmap in Hk.
all: match goal with
     | Hfind : findUpgradePod ?rs = Ok (?n, ?p) |- _ =>
         pose proof Hfind as Hpod; apply findUpgradePod_Ok in Hpod as [Hpod _];
         apply lookup_lt_Some in Hpod;
         exists n, p; split; [done|];
         assert (<[n:=runtime.ObjPod
                    (v1.setServiceAccountName UpgradePodServiceAccountName p)]>
                   rs !! n
                 = Some (runtime.ObjPod
                    (v1.setServiceAccountName UpgradePodServiceAccountName p)))
           as Hn by (by apply list_lookup_insert_eq)
     end.
all: destruct (_ !! k) as [res0|] eqn:Hres0; simplify_eq/=.
all: split_and!; [by eauto|by eauto|].
all: intros ->; simplify_eq/=; by eauto.
Qed.
End Claims.

(* ================================================================== *)
(** ** The properties at work on the scripted cluster *)

(** A forced upgrade from 1.4.2 while the upgrade pod is still running. *)
Lemma C1_witness :
  forcedUpgradeRun
    (Scripted.start 3 true (Scripted.world ["1.4.2"] (Some v1.PodRunning))).
Proof.
  apply C1_forced_upgrade_applies_and_clears.
  - reflexivity.
  - reflexivity.
  - vm_compute. discriminate.
Defined.

(** Version equal to the target: the forced call applies nothing, although
    two resources were rendered. *)
Lemma C1_counterexample : ¬ C1_as_worded.
Proof.
  intros H.
  specialize (H _ _
    (Scripted.start 3 true (Scripted.world ["1.5.0"] (Some v1.PodRunning)))
    eq_refl eq_refl).
  destruct H as (_ & i & pod & Hfind & Happlied).
  vm_compute in Hfind. injection Hfind as <- <-.
  vm_compute in Happlied. discriminate.
Qed.

(** The third failure of the upgrade pod. *)
Lemma C2_witness :
  failureBackoff
    (Scripted.start 3 false (Scripted.world ["1.4.2"] (Some v1.PodFailed))).
Proof.
  eapply C2_failed_task_backs_off.
  - vm_compute. split; discriminate.
  - reflexivity.
  - reflexivity.
  - reflexivity.
Defined.

(** With 2147483647 attempts on record the next failure commits
    -2147483648 attempts. *)
Lemma C2_counterexample : ¬ C2_as_worded.
Proof.
  intros H.
  edestruct (H _ _
    (Scripted.start MaxInt32 false (Scripted.world ["1.4.2"] (Some v1.PodFailed))))
    as (target & now & Hcommitted & _ & _ & Hattempts & _).
  - vm_compute. split; discriminate.
  - reflexivity.
  - reflexivity.
  - reflexivity.
  - vm_compute in Hcommitted. injection Hcommitted as <-.
    vm_compute in Hattempts. discriminate.
Qed.

Lemma C3_witness :
  ∃ target,
    committed (transcript (Execute
      (Scripted.start 3 false (Scripted.world ["1.5.0"] None)))) = [target] ∧
    v1alpha1.Status target =
      {| v1alpha1.InstallationStatus := v1alpha1.SyndesisInstallationStatusInstalled;
         v1alpha1.Reason := v1alpha1.SyndesisStatusReasonMissing;
         v1alpha1.Version := "1.5.0";
         v1alpha1.LastUpgradeFailure := None;
         v1alpha1.UpgradeAttempts := 0;
         v1alpha1.ForceUpgrade := false |}.
Proof.
  edestruct (C3_current_installation_completes
    (Scripted.start 3 false (Scripted.world ["1.5.0"] None)))
    as (target & Hcommitted & _).
  - reflexivity.
  - reflexivity.
  - reflexivity.
  - reflexivity.
  - exists target. split; [done|].
    vm_compute in Hcommitted. by injection Hcommitted as <-.
Defined.

Lemma C4_witness :
  ∃ target,
    committed (transcript (Execute
      (Scripted.start 3 false
         (Scripted.world ["1.4.2"; "1.4.2"] (Some v1.PodSucceeded))))) = [target] ∧
    v1alpha1.Status target = Scripted.status 3 true.
Proof.
  edestruct (C4_success_without_version_change_forces
    (Scripted.start 3 false
       (Scripted.world ["1.4.2"; "1.4.2"] (Some v1.PodSucceeded))))
    as (target & Hcommitted & _).
  - reflexivity.
  - reflexivity.
  - reflexivity.
  - reflexivity.
  - vm_compute. discriminate.
  - exists target. split; [done|].
    vm_compute in Hcommitted. by injection Hcommitted as <-.
Defined.

Lemma C5_witness :
  ∃ target,
    updates (transcript (Execute
      (Scripted.start 3 true (Scripted.world ["1.4.2"] (Some v1.PodRunning)))))
      = [(target, None)] ∧
    v1alpha1.ForceUpgrade (v1alpha1.Status target) = false.
Proof.
  edestruct (C5_force_flag_is_consumed
    (Scripted.start 3 true (Scripted.world ["1.4.2"] (Some v1.PodRunning))))
    as (target & Hupdates & _ & Hforce).
  - reflexivity.
  - reflexivity.
  - by exists target.
Defined.

(** The failure recorded at the largest [int32]. *)
Lemma C6_witness :
  attemptsStepOrWrap (Scripted.example MaxInt32 false)
    (v1alpha1.setStatus
       {| v1alpha1.InstallationStatus :=
            v1alpha1.SyndesisInstallationStatusUpgradeFailureBackoff;
          v1alpha1.Reason := v1alpha1.SyndesisStatusReasonUpgradePodFailed;
          v1alpha1.Version := "1.4.2";
          v1alpha1.LastUpgradeFailure := Some 1000;
          v1alpha1.UpgradeAttempts := MinInt32;
          v1alpha1.ForceUpgrade := false |}
       (Scripted.example MaxInt32 false)).
Proof.
  apply (C6_attempts_step_or_reset
    (Scripted.start MaxInt32 false
       (Scripted.world ["1.4.2"] (Some v1.PodFailed)))).
  - vm_compute. split; discriminate.
  - vm_compute. left.
Defined.

Lemma C6_counterexample : ¬ C6_as_worded.
Proof.
  intros H.
  specialize (H _ _
    (Scripted.start MaxInt32 false (Scripted.world ["1.4.2"] (Some v1.PodFailed)))
    (v1alpha1.setStatus
       {| v1alpha1.InstallationStatus :=
            v1alpha1.SyndesisInstallationStatusUpgradeFailureBackoff;
          v1alpha1.Reason := v1alpha1.SyndesisStatusReasonUpgradePodFailed;
          v1alpha1.Version := "1.4.2";
          v1alpha1.LastUpgradeFailure := Some 1000;
          v1alpha1.UpgradeAttempts := MinInt32;
          v1alpha1.ForceUpgrade := false |}
       (Scripted.example MaxInt32 false))).
  destruct H as [H|[[_ H]|[H _]]].
  - vm_compute. split; discriminate.
  - vm_compute. left.
  - vm_compute in H. discriminate.
  - vm_compute in H. discriminate.
  - vm_compute in H. discriminate.
Qed.

Lemma C7_witness :
  returned (Execute (Scripted.start 3 false Scripted.taskless))
    = Err (errors.New "upgrade pod not found") ∧
  committed (transcript (Execute (Scripted.start 3 false Scripted.taskless))) = [].
Proof.
  edestruct (C7_task_locator (Scripted.start 3 false Scripted.taskless))
    as (_ & Hfail).
  - reflexivity.
  - reflexivity.
  - destruct Hfail as (Hreturned & _ & Hcommitted & _).
    + intros res Hres. vm_compute in Hres.
      apply list_elem_of_singleton in Hres as ->. reflexivity.
    + by split.
Defined.

Lemma C8_witness :
  committed (transcript (Execute (Scripted.start 3 false Scripted.unreadable))) = [] ∧
  installation (machine (Execute (Scripted.start 3 false Scripted.unreadable)))
    = Scripted.example 3 false.
Proof.
  edestruct (C8_early_errors_leave_status_alone
    (Scripted.start 3 false Scripted.unreadable) ResolveTarget)
    as (_ & Hcommitted & Hinstallation).
  - reflexivity.
  - reflexivity.
  - by split.
Defined.

(** The empty version fills nothing: the second call reads the template
    again, after a successful read. *)
Lemma C9_counterexample : ¬ C9_as_worded.
Proof.
  intros H.
  specialize (H _ _ [Scripted.example 3 false; Scripted.example 3 false]
                Scripted.unversioned).
  assert (∃ w tr,
    reconcileAll [Scripted.example 3 false; Scripted.example 3 false]
      {| operatorVersion := "" |} Scripted.unversioned
      = ({| operatorVersion := "" |}, w, tr) ∧
    templateReads tr = [Ok ""; Ok ""]) as (w & tr & Hrun & Hreads).
  { eexists _, _. split; reflexivity. }
  rewrite Hrun in H. rewrite Hreads in H.
  destruct H as (misses & Hmisses & [[<- _]|(v & Hsplit & _)]).
  - by inversion Hmisses.
  - destruct misses as [|answer [|answer' misses]]; simplify_eq/=.
    + by inversion Hmisses.
    + by destruct misses.
Qed.

Lemma C10_witness :
  ∃ task,
    applied (transcript (Execute
      (Scripted.start 3 false (Scripted.world ["1.4.2"] None)))) !! 1%nat
      = Some (runtime.ObjPod task, true, None) ∧
    v1.ServiceAccountName (v1.Spec task) = "syndesis-operator".
Proof.
  edestruct (C10_service_account_before_apply
    (Scripted.start 3 false (Scripted.world ["1.4.2"] None)) 1%nat)
    as (i & pod & Hfind & _ & _ & Htask).
  - reflexivity.
  - vm_compute in Hfind. injection Hfind as <- <-.
    destruct (Htask eq_refl) as (task & Hres & Haccount).
    exists task. split; [|done]. by rewrite <- Hres.
Defined.


(* ================================================================== *)
(** ** Further properties of the reconciliation *)

Section Requests.
Context {W : Type} `{!Cluster W}.

(** X1.  Whatever a call asks the renderer, it asks once, for the
    installation it reconciles, with the placeholder OAuth client secret
    "-" and with the version the receiver holds after the call. *)
Theorem X1_render_request (m : Machine W) request :
  request ∈ renderRequests (transcript (Execute m)) →
  renderRequests (transcript (Execute m)) = [request] ∧
  request.1 = installation m ∧
  syndesistemplate.OAuthClientSecret
    (syndesistemplate.UpgradeInstallParams request.2) = "-" ∧
  syndesistemplate.SyndesisVersion request.2 = targetVersion (Execute m).
Proof.
  unfold targetVersion.
  destruct (Execute m) as [r m' tr] eqn:HE. simpl.
  intros Hin.
  exec HE.
  all: try by apply elem_of_nil in Hin.
  all: apply list_elem_of_singleton in Hin as ->; simpl.
  all: by destruct (this m).
Qed.

(** X2.  The live upgrade pod is looked up once at most, under the API
    version, the kind and the name of the first pod of the rendered set,
    and in the namespace of the installation, not in the namespace the
    rendered pod may carry. *)
Theorem X2_lookup_request (m : Machine W) request :
  request ∈ fetchRequests (transcript (Execute m)) →
  fetchRequests (transcript (Execute m)) = [request] ∧
  ∃ i pod,
    findUpgradePod (loaded (transcript (Execute m))) = Ok (i, pod) ∧
    v1.TypeMeta request = v1.TypeMeta pod ∧
    metav1.Name (v1.ObjectMeta request) = metav1.Name (v1.ObjectMeta pod) ∧
    metav1.Namespace (v1.ObjectMeta request)
      = v1alpha1.Namespace (installation m).
Proof.
  destruct (Execute m) as [r m' tr] eqn:HE. simpl.
  intros Hin.
  exec HE.
  all: try by apply elem_of_nil in Hin.
  all: apply list_elem_of_singleton in Hin as ->; simpl.
  all: split; [done|]; eexists _, _; split; [done|].
  all: split_and!; try done.
  all: by destruct (v1.TypeMeta _).
Qed.

(** X3.  While the upgrade pod is present, the upgrade is not forced and
    the pod has neither succeeded nor failed, a call is a no-op: it
    returns without error, applies nothing, reads no clock and issues no
    status update. *)
Theorem X3_running_is_noop (m : Machine W) pod :
  v1alpha1.ForceUpgrade (v1alpha1.Status (installation m)) = false →
  fetched (transcript (Execute m)) = [(pod, None)] →
  v1.Phase (v1.Status pod) ≠ v1.PodSucceeded →
  v1.Phase (v1.Status pod) ≠ v1.PodFailed →
  returned (Execute m) = Ok () ∧
  applied (transcript (Execute m)) = [] ∧
  updates (transcript (Execute m)) = [] ∧
  clockReads (transcript (Execute m)) = [] ∧
  length (namespaceReads (transcript (Execute m))) = 1%nat.
Proof.
  destruct (Execute m) as [r m' tr] eqn:HE. simpl.
  intros Hforce Hget Hsucceeded Hfailed.
  exec HE; prune.
  all: done.
Qed.

(** X4.  When the upgrade pod is not found, the upgrade is not forced and
    the live version differs from the target version, a call that returns
    without error has loaded every manifest of the rendered set and has
    applied each of the resources, in the order of the rendering, stamped
    and with force, the upgrade pod under the operator's service account;
    these applies are all it wrote: it has issued no status update, and
    the installation stays in its phase. *)
Theorem X4_first_attempt_applies_without_commit (m : Machine W) pod err :
  v1alpha1.ForceUpgrade (v1alpha1.Status (installation m)) = false →
  fetched (transcript (Execute m)) = [(pod, err)] →
  k8serrors.IsNotFound err = true →
  namespaceReads (transcript (Execute m)) ≠ [Ok (targetVersion (Execute m))] →
  returned (Execute m) = Ok () →
  updates (transcript (Execute m)) = [] ∧
  loadedTheRendering (transcript (Execute m)) ∧
  ∃ i task,
    findUpgradePod (loaded (transcript (Execute m))) = Ok (i, task) ∧
    applied (transcript (Execute m)) =
      (λ res, (setNamespaceAndOwnerReference res (installation m), true, None))
        <$> prepared (loaded (transcript (Execute m))) i task ∧
    writes (transcript (Execute m)) =
      applyEvents
        ((λ res, (setNamespaceAndOwnerReference res (installation m), None))
           <$> prepared (loaded (transcript (Execute m))) i task).
Proof.
  unfold targetVersion, prepared, loadedTheRendering.
  destruct (Execute m) as [r m' tr] eqn:HE. simpl.
  intros Hforce Hget Hnf Hns Hret.
  exec HE; prune.
  all: split; [done|]; split; [by eauto|]; eexists _, _; split; [done|].
  all: split; [|done].
  all: apply list_eq; intros k; rewrite !list_lookup_fmap;
    by destruct (_ !! k).
Qed.

(** X5.  When the upgrade pod is present, the upgrade is not forced, the
    pod has succeeded and the live version read again equals the target
    version, nothing is applied and the one status update that is issued
    has phase Installed, the reason "missing", the target version, no
    attempts, no failure time and [forceUpgrade] off. *)
Theorem X5_success_completes (m : Machine W) pod before :
  v1alpha1.ForceUpgrade (v1alpha1.Status (installation m)) = false →
  fetched (transcript (Execute m)) = [(pod, None)] →
  v1.Phase (v1.Status pod) = v1.PodSucceeded →
  namespaceReads (transcript (Execute m))
    = [Ok before; Ok (targetVersion (Execute m))] →
  applied (transcript (Execute m)) = [] ∧
  ∃ target, committed (transcript (Execute m)) = [target] ∧
    v1alpha1.Status target =
      {| v1alpha1.InstallationStatus :=
           v1alpha1.SyndesisInstallationStatusInstalled;
         v1alpha1.Reason := v1alpha1.SyndesisStatusReasonMissing;
         v1alpha1.Version := targetVersion (Execute m);
         v1alpha1.LastUpgradeFailure := None;
         v1alpha1.UpgradeAttempts := 0;
         v1alpha1.ForceUpgrade := false |}.
Proof.
  unfold targetVersion.
  destruct (Execute m) as [r m' tr] eqn:HE. simpl.
  intros Hforce Hget Hphase Hns.
  exec HE; prune.
  all: split; [done|]; by eexists.
Qed.

(** X6.  No resource is ever applied without force. *)
Theorem X6_apply_always_forces (m : Machine W) :
  Forall (λ entry, entry.1.2 = true) (applied (transcript (Execute m))).
Proof.
  apply Forall_forall. intros [[res force] err].
  destruct (Execute m) as [r m' tr] eqn:HE. simpl.
  intros Hin.
  exec HE.
  all: try by apply elem_of_nil in Hin.
  all: apply list_elem_of_fmap in Hin as ([res' err'] & Heq & _);
    by simplify_eq/=.
Qed.

(** X7.  With the upgrade pod present and the upgrade not forced, a call
    applies nothing, whatever the phase of the pod: a failed or a finished
    upgrade pod is never replaced in the call that observes it. *)
Theorem X7_present_task_is_not_reapplied (m : Machine W) pod :
  v1alpha1.ForceUpgrade (v1alpha1.Status (installation m)) = false →
  fetched (transcript (Execute m)) = [(pod, None)] →
  applied (transcript (Execute m)) = [].
Proof.
  destruct (Execute m) as [r m' tr] eqn:HE. simpl.
  intros Hforce Hget.
  exec HE; prune.
  all: done.
Qed.
End Requests.

(** The last entry of a transcript that ends in a loop. *)
Ltac last_call :=
  repeat first
    [ rewrite last_cons
    | rewrite last_app
    | rewrite last_applyEvents
    | rewrite last_loadEvents ];
  simpl.

(** In the transcript of an apply loop that failed, the failing apply is
    the last entry and the only one with an error. *)
Lemma failed_apply_is_last (answers : list (runtime.Object * option error))
    res e x e' :
  last answers = Some (x, Some e') →
  omap snd answers = [e'] →
  (res, Some e) ∈ answers →
  res = x ∧ e = e'.
Proof.
  intros (init & ->)%last_Some Hone Hin.
  rewrite omap_app in Hone. simpl in Hone.
  apply app_singleton in Hone as [[Hinit _]|[_ ?]]; [|done].
  apply elem_of_app in Hin as [Hin|Hin].
  - assert (e ∈ omap snd init) as He.
    { apply list_elem_of_omap. by exists (res, Some e). }
    rewrite Hinit in He. by apply elem_of_nil in He.
  - apply list_elem_of_singleton in Hin. by simplify_eq.
Qed.

Section Outcomes.
Context {W : Type} `{!Cluster W}.

(** X8.  A call issues one status update at most; the update is the last
    thing the call does, and the call returns what the update returned. *)
Theorem X8_commit_is_single_and_last (m : Machine W) target err :
  (target, err) ∈ updates (transcript (Execute m)) →
  updates (transcript (Execute m)) = [(target, err)] ∧
  last (transcript (Execute m)) = Some (EvUpdate target err) ∧
  returned (Execute m) = match err with Some e => Err e | None => Ok () end.
Proof.
  destruct (Execute m) as [r m' tr] eqn:HE. simpl.
  intros Hin.
  exec HE.
  all: try by apply elem_of_nil in Hin.
  all: apply list_elem_of_singleton in Hin; simplify_eq.
  all: split; [done|]; split; [|done].
  all: by last_call.
Qed.

(** X9.  A failing apply ends the call: the call returns the error of
    that apply, the apply is the last thing it did, and no status update
    is issued, so that a set [forceUpgrade] stays set for the next call. *)
Theorem X9_apply_failure_aborts (m : Machine W) res force e :
  (res, force, Some e) ∈ applied (transcript (Execute m)) →
  returned (Execute m) = Err e ∧
  last (transcript (Execute m)) = Some (EvApply res true (Some e)) ∧
  updates (transcript (Execute m)) = [].
Proof.
  destruct (Execute m) as [r m' tr] eqn:HE. simpl.
  intros Hin.
  exec HE.
  all: try by apply elem_of_nil in Hin.
  all: apply list_elem_of_fmap in Hin as ([res' err'] & Heq & Hin);
    simplify_eq/=.
  all: try by (apply list_elem_of_fmap in Hin as (? & ? & _); simplify_eq).
  all: match goal with
       | Hlast : last _ = Some _, Hone : omap snd _ = _ |- _ =>
           destruct (failed_apply_is_last _ _ _ _ _ Hlast Hone Hin) as [-> ->];
           split_and!; [done| |done]; last_call; by rewrite Hlast
       end.
Qed.
End Outcomes.

(** On a path on which the loading loop succeeded, no load failed. *)
Ltac no_load_failure :=
  repeat match goal with
  | H : loadFailures _ = [] |- _ => rewrite H; clear H
  end;
  simpl.

(** The locator fails in one way, and only on a set without a pod. *)
Lemma findUpgradePod_Err_inv resources e :
  findUpgradePod resources = Err e →
  e = errors.New "upgrade pod not found" ∧
  ∀ res, res ∈ resources → runtime.isPod res = false.
Proof.
  induction resources as [|res rest IH]; simpl.
  - intros [= <-]. split; [done|]. by intros res ?%elem_of_nil.
  - destruct res as [pod|tm om body]; [done|].
    destruct (findUpgradePod rest) as [[i pod]|e'] eqn:Hrest; [done|].
    intros [= <-]. destruct IH as [-> Hno]; [done|]. split; [done|].
    intros res [->|Hin]%elem_of_cons; [done|by apply Hno].
Qed.

Section Errors.
Context {W : Type} `{!Cluster W}.

(** X10.  A call that returns without error has had every external call
    succeed, with one exception: the lookup of the live upgrade pod may
    have answered "not found".  No other error is swallowed. *)
Theorem X10_success_swallows_only_not_found (m : Machine W) :
  returned (Execute m) = Ok () →
  failures (transcript (Execute m)) = [] ∨
  ∃ pod e, fetched (transcript (Execute m)) = [(pod, Some e)] ∧
    k8serrors.IsNotFound (Some e) = true ∧
    failures (transcript (Execute m)) = [e].
Proof.
  destruct (Execute m) as [r m' tr] eqn:HE. simpl.
  intros Hret.
  exec HE.
  all: try done.
  all: no_load_failure.
  all: try by left.
  all: right; by eauto.
Qed.

(** X11.  The error a call returns is the error of the external call it
    made last, unless the rendered set holds no pod: then it is the
    locator's own error, raised after every external call so far had
    succeeded and before the cluster was asked anything. *)
Theorem X11_returned_error_origin (m : Machine W) e :
  returned (Execute m) = Err e →
  (∃ ev, last (transcript (Execute m)) = Some ev ∧ eventError ev = Some e) ∨
  (e = errors.New "upgrade pod not found" ∧
   (∀ res, res ∈ loaded (transcript (Execute m)) → runtime.isPod res = false) ∧
   failures (transcript (Execute m)) = [] ∧
   fetchRequests (transcript (Execute m)) = []).
Proof.
  destruct (Execute m) as [r m' tr] eqn:HE. simpl.
  intros Hret.
  exec HE.
  all: try done.
  all: no_load_failure.
  all: try (right;
    match goal with
    | Hfind : findUpgradePod _ = Err _ |- _ =>
        apply findUpgradePod_Err_inv in Hfind as [-> Hno]
    end; by split_and!).
  all: left; eexists; split;
    [last_call;
     repeat match goal with Hlast : last _ = Some _ |- _ => rewrite Hlast end;
     simpl; reflexivity|done].
Qed.
End Errors.

Section Commits.
Context {W : Type} `{!Cluster W}.

(** X12.  A status update never touches the name, the namespace or the
    spec of the installation, and its status is one of three: the prior
    status with only [forceUpgrade] rewritten; the Installed status at the
    target version; or the backoff status, stamped with the one reading of
    the clock the call took, with the version and the flag as they were. *)
Theorem X12_commit_frame (m : Machine W) target :
  target ∈ committed (transcript (Execute m)) →
  v1alpha1.Name target = v1alpha1.Name (installation m) ∧
  v1alpha1.Namespace target = v1alpha1.Namespace (installation m) ∧
  v1alpha1.Spec target = v1alpha1.Spec (installation m) ∧
  let prior := v1alpha1.Status (installation m) in
  ((∃ flag, v1alpha1.Status target =
      {| v1alpha1.InstallationStatus := v1alpha1.InstallationStatus prior;
         v1alpha1.Reason := v1alpha1.Reason prior;
         v1alpha1.Version := v1alpha1.Version prior;
         v1alpha1.LastUpgradeFailure := v1alpha1.LastUpgradeFailure prior;
         v1alpha1.UpgradeAttempts := v1alpha1.UpgradeAttempts prior;
         v1alpha1.ForceUpgrade := flag |}) ∨
   v1alpha1.Status target =
     {| v1alpha1.InstallationStatus := v1alpha1.SyndesisInstallationStatusInstalled;
        v1alpha1.Reason := v1alpha1.SyndesisStatusReasonMissing;
        v1alpha1.Version := targetVersion (Execute m);
        v1alpha1.LastUpgradeFailure := None;
        v1alpha1.UpgradeAttempts := 0;
        v1alpha1.ForceUpgrade := false |} ∨
   (∃ now, clockReads (transcript (Execute m)) = [now] ∧
      v1alpha1.Status target =
        {| v1alpha1.InstallationStatus :=
             v1alpha1.SyndesisInstallationStatusUpgradeFailureBackoff;
           v1alpha1.Reason := v1alpha1.SyndesisStatusReasonUpgradePodFailed;
           v1alpha1.Version := v1alpha1.Version prior;
           v1alpha1.LastUpgradeFailure := Some now;
           v1alpha1.UpgradeAttempts := int32 (v1alpha1.UpgradeAttempts prior + 1);
           v1alpha1.ForceUpgrade := v1alpha1.ForceUpgrade prior |})).
Proof.
  unfold targetVersion.
  destruct (Execute m) as [r m' tr] eqn:HE. simpl.
  intros Hin.
  exec HE.
  all: try by apply elem_of_nil in Hin.
  all: apply list_elem_of_singleton in Hin as ->; simpl.
  all: split_and!; try done.
  all: try by (left; eauto).
  all: try by (right; left).
  all: right; right; by eauto.
Qed.

(** X13.  The clock is read only to time a failure: a call that read the
    clock was not forced, found the live upgrade pod in phase Failed, and
    went on to issue one status update carrying that reading as the time
    of the last upgrade failure. *)
Theorem X13_clock_times_a_failure (m : Machine W) now :
  now ∈ clockReads (transcript (Execute m)) →
  clockReads (transcript (Execute m)) = [now] ∧
  v1alpha1.ForceUpgrade (v1alpha1.Status (installation m)) = false ∧
  (∃ pod, fetched (transcript (Execute m)) = [(pod, None)] ∧
     v1.Phase (v1.Status pod) = v1.PodFailed) ∧
  ∃ target err, updates (transcript (Execute m)) = [(target, err)] ∧
    v1alpha1.LastUpgradeFailure (v1alpha1.Status target) = Some now.
Proof.
  destruct (Execute m) as [r m' tr] eqn:HE. simpl.
  intros Hin.
  exec HE.
  all: try by apply elem_of_nil in Hin.
  all: apply list_elem_of_singleton in Hin as ->; simpl.
  all: path_facts.
  all: split_and!; try done; by eauto.
Qed.
End Commits.

(** A walk that gets somewhere, read off the walk itself. *)
Lemma reached (walk : option Stage) (P : Stage → Prop) :
  match walk with Some stage => P stage | None => False end →
  ∃ stage, walk = Some stage ∧ P stage.
Proof. destruct walk; [by eauto|done]. Qed.

(** Walks the automaton along a transcript made of calls and loops. *)
Ltac walk :=
  repeat first
    [ rewrite follow_app
    | rewrite follow_loads by auto
    | rewrite follow_applies by auto
    | match goal with
      | |- context [match ?l with [] => _ | _ :: _ => _ end] =>
          destruct l; simplify_eq/=
      end
    | progress simpl ].

Section Order.
Context {W : Type} `{!Cluster W}.

(** X14.  The external calls of one reconciliation come in a fixed order:
    the template version (if at all), the live version, the rendering, the
    loads, the lookup of the live pod, and then either the applies, or the
    second reading of the live version, or the clock, each followed by at
    most one status update, after which nothing is called.  A call that
    returns without error has got as far as the lookup. *)
Theorem X14_call_order (m : Machine W) :
  ∃ stage, follow AtStart (transcript (Execute m)) = Some stage ∧
    (returned (Execute m) = Ok () →
     stage = AfterGet ∨ stage = AfterApply ∨ stage = AfterUpdate).
Proof.
  destruct (Execute m) as [r m' tr] eqn:HE. simpl.
  exec HE.
  all: apply reached.
  all: walk.
  all: try done.
  all: intros _; auto.
Qed.

(** X15.  The live version is only ever asked of the namespace of the
    installation.  It is asked twice at most, and a second time only when
    the upgrade is not forced and the live upgrade pod has succeeded. *)
Theorem X15_live_version_reads (m : Machine W) namespace :
  namespace ∈ namespaceRequests (transcript (Execute m)) →
  namespace = v1alpha1.Namespace (installation m) ∧
  (length (namespaceRequests (transcript (Execute m))) ≤ 2)%nat ∧
  (length (namespaceRequests (transcript (Execute m))) = 2%nat →
   v1alpha1.ForceUpgrade (v1alpha1.Status (installation m)) = false ∧
   ∃ pod, fetched (transcript (Execute m)) = [(pod, None)] ∧
     v1.Phase (v1.Status pod) = v1.PodSucceeded).
Proof.
  destruct (Execute m) as [r m' tr] eqn:HE. simpl.
  intros Hin.
  exec HE.
  all: try by apply elem_of_nil in Hin.
  all: path_facts.
  all: split_and!; [|lia|intros ?; simplify_eq; by eauto].
  all: repeat (apply elem_of_cons in Hin as [->|Hin]; [done|]).
  all: by apply elem_of_nil in Hin.
Qed.
End Order.

Section Loading.
Context {W : Type} `{!Cluster W}.

(** The loading loop asks for the manifests in the order given, one load
    per manifest, and stops at the first that fails. *)
Lemma loadResources_requests rawResources resources (m : Machine W) :
  let o := loadResources rawResources resources m in
  match returned o with
  | Ok out =>
      out = resources ++ loaded (transcript o) ∧
      loadRequests (transcript o)
        = zip (runtime.Raw <$> rawResources) (Ok <$> loaded (transcript o)) ∧
      length (loaded (transcript o)) = length rawResources
  | Err e =>
      ∃ k obj, rawResources !! k = Some obj ∧
        length (loaded (transcript o)) = k ∧
        loadRequests (transcript o)
          = zip (runtime.Raw <$> take k rawResources)
                (Ok <$> loaded (transcript o))
            ++ [(runtime.Raw obj, Err e)]
  end.
Proof.
  revert resources m.
  induction rawResources as [|obj rest IH]; intros resources m; cbv zeta.
  - simpl. by rewrite app_nil_r.
  - destruct (loadResources (obj :: rest) resources m) as [r m' tr] eqn:H.
    simpl in H.
    apply bind_inv in H as [(e & H & ->)|(res & m1 & tr1 & tr2 & Hc & H & ->)].
    + apply callR_inv in H as (w & Hop & -> & ->). simpl.
      by exists 0%nat, obj.
    + specialize (IH (resources ++ [res]) m1). cbv zeta in IH.
      rewrite H in IH.
      apply callR_inv in Hc as (w & Hop & -> & ->). simpl in *.
      destruct r as [out|e].
      * destruct IH as (-> & -> & ->). by rewrite <- (assoc_L (++)).
      * destruct IH as (k & obj' & Hk & Hlen & ->).
        exists (S k), obj'. simpl. by rewrite Hlen.
Qed.

(** X16.  When [getUpgradeResources] returns a resource list, it has
    rendered once, and has then loaded every rendered manifest once, in
    the order of the rendering; the list holds the loaded objects in that
    order, one per manifest.  The receiver and the installation are as
    they were. *)
Theorem X16_resources_follow_the_rendering (syndesis : v1alpha1.Syndesis)
    (m : Machine W) resources :
  returned (getUpgradeResources syndesis m) = Ok resources →
  let o := getUpgradeResources syndesis m in
  ∃ rawResources,
    rendered (transcript o) = [Ok rawResources] ∧
    loadRequests (transcript o)
      = zip (runtime.Raw <$> rawResources) (Ok <$> resources) ∧
    length resources = length rawResources ∧
    loaded (transcript o) = resources ∧
    failures (transcript o) = [] ∧
    this (machine o) = this m ∧ installation (machine o) = installation m.
Proof.
  intros Hret o. subst o.
  destruct (getUpgradeResources syndesis m) as [r m' tr] eqn:HE.
  simpl in *. subst r. unfold getUpgradeResources in HE.
  apply bind_inv in HE as [(e & H & ?)|(a & m1 & tr1 & tr2 & Hc & H & ->)];
    [done|].
  apply gets_inv in Hc as (? & ? & ?); simplify_eq.
  apply bind_inv in H as [(e & H & ?)|(raws & m2 & tr3 & tr4 & Hc & H & ->)];
    [done|].
  apply callR_inv in Hc as (w & Hop & ? & ?); simplify_eq.
  pose proof (loadResources_requests raws []
                {| this := this m; installation := installation m;
                   cluster := w |}) as Hreq.
  pose proof H as Hinv.
  apply loadResources_inv in Hinv as (Hthis & Hinst & answers & -> & Hcases).
  rewrite H in Hreq. simpl in Hreq. destruct Hreq as (-> & Hreq & Hlen).
  destruct Hcases as [(_ & _ & Hfail & _)|(? & ? & _)]; [|done].
  exists raws. simpl. autorewrite with transcript in *. simpl.
  rewrite ?failures_loadEvents, ?Hfail.
  by split_and!.
Qed.

(** X17.  When [getUpgradeResources] returns an error, either the
    rendering failed and nothing was loaded, or the manifests before some
    position loaded, the one at that position did not, and no later one
    was tried; the error is that of the failing call. *)
Theorem X17_first_failure_stops_the_loading (syndesis : v1alpha1.Syndesis)
    (m : Machine W) e :
  returned (getUpgradeResources syndesis m) = Err e →
  let o := getUpgradeResources syndesis m in
  (rendered (transcript o) = [Err e] ∧ loadRequests (transcript o) = []) ∨
  ∃ rawResources k obj,
    rendered (transcript o) = [Ok rawResources] ∧
    rawResources !! k = Some obj ∧
    length (loaded (transcript o)) = k ∧
    loadRequests (transcript o)
      = zip (runtime.Raw <$> take k rawResources)
            (Ok <$> loaded (transcript o))
        ++ [(runtime.Raw obj, Err e)].
Proof.
  intros Hret o. subst o.
  destruct (getUpgradeResources syndesis m) as [r m' tr] eqn:HE.
  simpl in *. subst r. unfold getUpgradeResources in HE.
  apply bind_inv in HE as [(e' & H & ?)|(a & m1 & tr1 & tr2 & Hc & H & ->)].
  { by apply gets_inv in H as (? & ? & ?). }
  apply gets_inv in Hc as (? & ? & ?); simplify_eq.
  apply bind_inv in H as [(e' & H & ?)|(raws & m2 & tr3 & tr4 & Hc & H & ->)].
  - simplify_eq. apply callR_inv in H as (w & Hop & -> & ->). by left.
  - apply callR_inv in Hc as (w & Hop & ? & ?); simplify_eq.
    pose proof (loadResources_requests raws []
                  {| this := this m; installation := installation m;
                     cluster := w |}) as Hreq.
    pose proof H as Hinv.
    apply loadResources_inv in Hinv as (Hthis & Hinst & answers & -> & Hcases).
    rewrite H in Hreq. simpl in Hreq.
    destruct Hreq as (k & obj & Hk & Hlen & Hreq).
    right. exists raws, k, obj. simpl. autorewrite with transcript in *.
    by split_and!.
Qed.
End Loading.

Section Edges.
Context {W : Type} `{!Cluster W}.

(** X18.  A forced upgrade of an installation whose live version already
    is the target version applies nothing: whatever the phase of the live
    upgrade pod, and also when there is none, the call goes straight to
    the one status update that declares the installation Installed at the
    target version, with [forceUpgrade] off. *)
Theorem X18_forced_but_current_completes (m : Machine W) pod err :
  v1alpha1.ForceUpgrade (v1alpha1.Status (installation m)) = true →
  fetched (transcript (Execute m)) = [(pod, err)] →
  err = None ∨ k8serrors.IsNotFound err = true →
  namespaceReads (transcript (Execute m)) = [Ok (targetVersion (Execute m))] →
  applied (transcript (Execute m)) = [] ∧
  ∃ target, committed (transcript (Execute m)) = [target] ∧
    v1alpha1.Status target =
      {| v1alpha1.InstallationStatus := v1alpha1.SyndesisInstallationStatusInstalled;
         v1alpha1.Reason := v1alpha1.SyndesisStatusReasonMissing;
         v1alpha1.Version := targetVersion (Execute m);
         v1alpha1.LastUpgradeFailure := None;
         v1alpha1.UpgradeAttempts := 0;
         v1alpha1.ForceUpgrade := false |}.
Proof.
  unfold targetVersion.
  destruct (Execute m) as [r m' tr] eqn:HE. simpl.
  intros Hforce Hget Herr Hns.
  exec HE; prune.
  all: try (destruct Herr; congruence).
  all: split; [done|]; by eauto.
Qed.

(** X19.  The attempt counter is an [int32] and is incremented without a
    bound check: a failure recorded at the largest [int32] leaves the
    counter at the smallest one, in phase UpgradeFailureBackoff. *)
Theorem X19_attempts_wrap_around (m : Machine W) pod :
  v1alpha1.UpgradeAttempts (v1alpha1.Status (installation m)) = MaxInt32 →
  v1alpha1.ForceUpgrade (v1alpha1.Status (installation m)) = false →
  fetched (transcript (Execute m)) = [(pod, None)] →
  v1.Phase (v1.Status pod) = v1.PodFailed →
  ∃ target, committed (transcript (Execute m)) = [target] ∧
    v1alpha1.InstallationStatus (v1alpha1.Status target)
      = v1alpha1.SyndesisInstallationStatusUpgradeFailureBackoff ∧
    v1alpha1.UpgradeAttempts (v1alpha1.Status target) = MinInt32.
Proof.
  destruct (Execute m) as [r m' tr] eqn:HE. simpl.
  intros Hmax Hforce Hget Hphase.
  exec HE; prune.
  all: eexists; split; [done|]; simpl; split; [done|].
  all: unfold v1alpha1.DeepCopy; rewrite Hmax; apply int32_wraps.
Qed.
End Edges.

(* ================================================================== *)
(** ** The further properties at work on the scripted cluster *)

Lemma X1_witness :
  renderRequests (transcript (Execute
    (Scripted.start 3 false (Scripted.world ["1.4.2"] (Some v1.PodRunning)))))
  = [(Scripted.example 3 false,
      {| syndesistemplate.UpgradeInstallParams :=
           {| syndesistemplate.OAuthClientSecret := "-" |};
         syndesistemplate.SyndesisVersion := "1.5.0" |})].
Proof.
  edestruct (X1_render_request
    (Scripted.start 3 false (Scripted.world ["1.4.2"] (Some v1.PodRunning)))
    (Scripted.example 3 false,
      {| syndesistemplate.UpgradeInstallParams :=
           {| syndesistemplate.OAuthClientSecret := "-" |};
         syndesistemplate.SyndesisVersion := "1.5.0" |}))
    as [Hrequests _].
  - vm_compute. left.
  - exact Hrequests.
Defined.

Lemma X2_witness :
  fetchRequests (transcript (Execute
    (Scripted.start 3 false (Scripted.world ["1.4.2"] (Some v1.PodRunning)))))
  = [ {| v1.TypeMeta := Scripted.podMeta;
         v1.ObjectMeta := {| metav1.Namespace := "syndesis";
                             metav1.Name := "syndesis-upgrade";
                             metav1.OwnerReferences := [] |};
         v1.Spec := v1.zeroSpec;
         v1.Status := v1.zeroStatus |} ].
Proof.
  edestruct (X2_lookup_request
    (Scripted.start 3 false (Scripted.world ["1.4.2"] (Some v1.PodRunning)))
    {| v1.TypeMeta := Scripted.podMeta;
       v1.ObjectMeta := {| metav1.Namespace := "syndesis";
                           metav1.Name := "syndesis-upgrade";
                           metav1.OwnerReferences := [] |};
       v1.Spec := v1.zeroSpec;
       v1.Status := v1.zeroStatus |})
    as [Hrequests _].
  - vm_compute. left.
  - exact Hrequests.
Defined.

(** The upgrade pod is running: nothing to do. *)
Lemma X3_witness :
  returned (Execute
    (Scripted.start 3 false (Scripted.world ["1.4.2"] (Some v1.PodRunning))))
    = Ok () ∧
  updates (transcript (Execute
    (Scripted.start 3 false (Scripted.world ["1.4.2"] (Some v1.PodRunning)))))
    = [].
Proof.
  edestruct (X3_running_is_noop
    (Scripted.start 3 false (Scripted.world ["1.4.2"] (Some v1.PodRunning))))
    as (Hreturned & _ & Hupdates & _).
  - reflexivity.
  - reflexivity.
  - vm_compute. discriminate.
  - vm_compute. discriminate.
  - by split.
Defined.

(** No upgrade pod yet: the first attempt. *)
Lemma X4_witness :
  updates (transcript (Execute
    (Scripted.start 3 false (Scripted.world ["1.4.2"] None)))) = [] ∧
  length (applied (transcript (Execute
    (Scripted.start 3 false (Scripted.world ["1.4.2"] None))))) = 2%nat.
Proof.
  edestruct (X4_first_attempt_applies_without_commit
    (Scripted.start 3 false (Scripted.world ["1.4.2"] None)))
    as (Hupdates & _ & i & task & Hfind & Happlied & _).
  - reflexivity.
  - reflexivity.
  - reflexivity.
  - vm_compute. discriminate.
  - reflexivity.
  - split; [done|]. rewrite Happlied. unfold prepared.
    rewrite length_fmap, length_insert. reflexivity.
Defined.

Lemma X5_witness :
  ∃ target,
    committed (transcript (Execute
      (Scripted.start 3 false
         (Scripted.world ["1.4.2"; "1.5.0"] (Some v1.PodSucceeded))))) = [target] ∧
    v1alpha1.Status target =
      {| v1alpha1.InstallationStatus := v1alpha1.SyndesisInstallationStatusInstalled;
         v1alpha1.Reason := v1alpha1.SyndesisStatusReasonMissing;
         v1alpha1.Version := "1.5.0";
         v1alpha1.LastUpgradeFailure := None;
         v1alpha1.UpgradeAttempts := 0;
         v1alpha1.ForceUpgrade := false |}.
Proof.
  edestruct (X5_success_completes
    (Scripted.start 3 false
       (Scripted.world ["1.4.2"; "1.5.0"] (Some v1.PodSucceeded))))
    as (_ & target & Hcommitted & Hstatus).
  - reflexivity.
  - reflexivity.
  - reflexivity.
  - reflexivity.
  - exists target. split; [done|]. exact Hstatus.
Defined.

(** A failed upgrade pod is left where it is. *)
Lemma X7_witness :
  applied (transcript (Execute
    (Scripted.start 3 false (Scripted.world ["1.4.2"] (Some v1.PodFailed)))))
  = [].
Proof.
  eapply (X7_present_task_is_not_reapplied
    (Scripted.start 3 false (Scripted.world ["1.4.2"] (Some v1.PodFailed)))).
  - reflexivity.
  - reflexivity.
Defined.

Lemma X8_witness :
  last (transcript (Execute
    (Scripted.start 3 true (Scripted.world ["1.4.2"] (Some v1.PodRunning)))))
    = Some (EvUpdate (Scripted.example 3 false) None) ∧
  returned (Execute
    (Scripted.start 3 true (Scripted.world ["1.4.2"] (Some v1.PodRunning))))
    = Ok ().
Proof.
  edestruct (X8_commit_is_single_and_last
    (Scripted.start 3 true (Scripted.world ["1.4.2"] (Some v1.PodRunning)))
    (Scripted.example 3 false) None)
    as (_ & Hlast & Hreturned).
  - vm_compute. left.
  - by split.
Defined.

(** The cluster refuses the first resource: the second is not tried. *)
Lemma X9_witness :
  returned (Execute (Scripted.start 3 true Scripted.rejecting))
    = Err (PlainError "apply refused") ∧
  updates (transcript (Execute (Scripted.start 3 true Scripted.rejecting)))
    = [].
Proof.
  edestruct (X9_apply_failure_aborts
    (Scripted.start 3 true Scripted.rejecting)
    (setNamespaceAndOwnerReference
       (runtime.ObjOther Scripted.configMeta
          {| metav1.Namespace := ""; metav1.Name := "config";
             metav1.OwnerReferences := [] |} "config")
       (Scripted.example 3 true))
    true (PlainError "apply refused"))
    as (Hreturned & _ & Hupdates).
  - vm_compute. left.
  - by split.
Defined.

(** The lookup answered "not found", and the call went on. *)
Lemma X10_witness :
  failures (transcript (Execute
    (Scripted.start 3 false (Scripted.world ["1.4.2"] None))))
  = [StatusError metav1.StatusReasonNotFound "pod not found"].
Proof.
  destruct (X10_success_swallows_only_not_found
    (Scripted.start 3 false (Scripted.world ["1.4.2"] None)))
    as [Hnone|(pod & e & Hfetched & _ & Hfailures)].
  - reflexivity.
  - vm_compute in Hnone. discriminate.
  - vm_compute in Hfetched. injection Hfetched as <- <-. exact Hfailures.
Defined.

(** A manifest that does not parse: the error is the loader's. *)
Lemma X11_witness :
  ∃ ev,
    last (transcript (Execute (Scripted.start 3 false Scripted.garbled)))
      = Some ev ∧
    eventError ev = Some (PlainError "cannot decode").
Proof.
  destruct (X11_returned_error_origin
    (Scripted.start 3 false Scripted.garbled) (PlainError "cannot decode"))
    as [Hlast|(Hlocator & _)].
  - reflexivity.
  - exact Hlast.
  - vm_compute in Hlocator. discriminate.
Defined.

Lemma X12_witness :
  v1alpha1.Spec (v1alpha1.setStatus
    {| v1alpha1.InstallationStatus :=
         v1alpha1.SyndesisInstallationStatusUpgradeFailureBackoff;
       v1alpha1.Reason := v1alpha1.SyndesisStatusReasonUpgradePodFailed;
       v1alpha1.Version := "1.4.2";
       v1alpha1.LastUpgradeFailure := Some 1000;
       v1alpha1.UpgradeAttempts := 4;
       v1alpha1.ForceUpgrade := false |}
    (Scripted.example 3 false))
  = v1alpha1.Spec (Scripted.example 3 false).
Proof.
  edestruct (X12_commit_frame
    (Scripted.start 3 false (Scripted.world ["1.4.2"] (Some v1.PodFailed)))
    (v1alpha1.setStatus
       {| v1alpha1.InstallationStatus :=
            v1alpha1.SyndesisInstallationStatusUpgradeFailureBackoff;
          v1alpha1.Reason := v1alpha1.SyndesisStatusReasonUpgradePodFailed;
          v1alpha1.Version := "1.4.2";
          v1alpha1.LastUpgradeFailure := Some 1000;
          v1alpha1.UpgradeAttempts := 4;
          v1alpha1.ForceUpgrade := false |}
       (Scripted.example 3 false)))
    as (_ & _ & Hspec & _).
  - vm_compute. left.
  - exact Hspec.
Defined.

Lemma X13_witness :
  ∃ target err,
    updates (transcript (Execute
      (Scripted.start 3 false (Scripted.world ["1.4.2"] (Some v1.PodFailed)))))
      = [(target, err)] ∧
    v1alpha1.LastUpgradeFailure (v1alpha1.Status target) = Some 1000.
Proof.
  edestruct (X13_clock_times_a_failure
    (Scripted.start 3 false (Scripted.world ["1.4.2"] (Some v1.PodFailed)))
    1000)
    as (_ & _ & _ & Hupdate).
  - vm_compute. left.
  - exact Hupdate.
Defined.

Lemma X14_witness :
  follow AtStart (transcript (Execute
    (Scripted.start 3 false (Scripted.world ["1.4.2"] None))))
  = Some AfterApply.
Proof.
  destruct (X14_call_order
    (Scripted.start 3 false (Scripted.world ["1.4.2"] None)))
    as (stage & Hfollow & _).
  rewrite Hfollow. vm_compute in Hfollow. by injection Hfollow as <-.
Defined.

Lemma X15_witness :
  (length (namespaceRequests (transcript (Execute
    (Scripted.start 3 false
       (Scripted.world ["1.4.2"; "1.5.0"] (Some v1.PodSucceeded))))))
   ≤ 2)%nat.
Proof.
  edestruct (X15_live_version_reads
    (Scripted.start 3 false
       (Scripted.world ["1.4.2"; "1.5.0"] (Some v1.PodSucceeded)))
    "syndesis")
    as (_ & Hlength & _).
  - vm_compute. left.
  - exact Hlength.
Defined.

Lemma X16_witness :
  loadRequests (transcript (getUpgradeResources (Scripted.example 3 false)
    {| this := {| operatorVersion := "1.5.0" |};
       installation := Scripted.example 3 false;
       cluster := Scripted.world ["1.4.2"] None |}))
  = [("config", Scripted.decode "config"); ("pod", Scripted.decode "pod")].
Proof.
  edestruct (X16_resources_follow_the_rendering (Scripted.example 3 false)
    {| this := {| operatorVersion := "1.5.0" |};
       installation := Scripted.example 3 false;
       cluster := Scripted.world ["1.4.2"] None |})
    as (rawResources & Hrendered & Hrequests & _).
  - reflexivity.
  - vm_compute in Hrendered. injection Hrendered as <-.
    rewrite Hrequests. reflexivity.
Defined.

(** The second manifest does not parse: the third is not loaded. *)
Lemma X17_witness :
  loadRequests (transcript (getUpgradeResources (Scripted.example 3 false)
    {| this := {| operatorVersion := "1.5.0" |};
       installation := Scripted.example 3 false;
       cluster := Scripted.garbled |}))
  = [("config", Scripted.decode "config");
     ("broken", Err (PlainError "cannot decode"))].
Proof.
  destruct (X17_first_failure_stops_the_loading (Scripted.example 3 false)
    {| this := {| operatorVersion := "1.5.0" |};
       installation := Scripted.example 3 false;
       cluster := Scripted.garbled |}
    (PlainError "cannot decode"))
    as [[Hrendered _]|(rawResources & k & obj & Hrendered & Hk & Hlen & Hrequests)].
  - reflexivity.
  - vm_compute in Hrendered. discriminate.
  - rewrite Hrequests. vm_compute in Hlen. subst k.
    vm_compute in Hrendered. injection Hrendered as <-.
    vm_compute in Hk. injection Hk as <-. reflexivity.
Defined.

(** Forced, but already at the target version. *)
Lemma X18_witness :
  applied (transcript (Execute
    (Scripted.start 3 true (Scripted.world ["1.5.0"] (Some v1.PodFailed)))))
    = [] ∧
  ∃ target,
    committed (transcript (Execute
      (Scripted.start 3 true (Scripted.world ["1.5.0"] (Some v1.PodFailed)))))
      = [target] ∧
    v1alpha1.InstallationStatus (v1alpha1.Status target)
      = v1alpha1.SyndesisInstallationStatusInstalled.
Proof.
  edestruct (X18_forced_but_current_completes
    (Scripted.start 3 true (Scripted.world ["1.5.0"] (Some v1.PodFailed))))
    as (Happlied & target & Hcommitted & Hstatus).
  - reflexivity.
  - reflexivity.
  - by left.
  - reflexivity.
  - split; [done|]. exists target. split; [done|]. by rewrite Hstatus.
Defined.

Lemma X19_witness :
  ∃ target,
    committed (transcript (Execute
      (Scripted.start MaxInt32 false
         (Scripted.world ["1.4.2"] (Some v1.PodFailed))))) = [target] ∧
    v1alpha1.UpgradeAttempts (v1alpha1.Status target) = -2147483648.
Proof.
  edestruct (X19_attempts_wrap_around
    (Scripted.start MaxInt32 false
       (Scripted.world ["1.4.2"] (Some v1.PodFailed))))
    as (target & Hcommitted & _ & Hattempts).
  - reflexivity.
  - reflexivity.
  - reflexivity.
  - reflexivity.
  - exists target. split; [done|]. exact Hattempts.
Defined.
